(** * EagleEyed: a shallow embedding of the front-end pages and of the
      backend pipeline, with the properties stated by its specification. *)

From Stdlib Require Import ZArith QArith Lia.
From stdpp Require Import base gmap strings list.

Open Scope string_scope.
#[local] Set Warnings "-register-all".

(* ------------------------------------------------------------------ *)
(** ** JavaScript values as the front end sees them *)

(** JSON-like values returned by [api] calls ([res.data]) and stored in
    React state.  Numbers are integers here: no front-end code below does
    arithmetic on them. *)
Inductive jsval : Type :=
| JUndef
| JNull
| JBool (b : bool)
| JNum (n : Z)
| JStr (s : string)
| JArr (xs : list jsval)
| JObj (fields : list (string * jsval)).

(** JavaScript truthiness ([if (v)], [!v], [v || w]). *)
Definition truthy (v : jsval) : bool :=
  match v with
  | JUndef | JNull => false
  | JBool b => b
  | JNum n => negb (Z.eqb n 0)
  | JStr s => negb (String.eqb s "")
  | JArr _ | JObj _ => true
  end.

(** [a || b] *)
Definition js_or (a b : jsval) : jsval := if truthy a then a else b.

Fixpoint assoc_get (k : string) (fs : list (string * jsval)) : jsval :=
  match fs with
  | [] => JUndef
  | (k', v) :: fs' => if String.eqb k k' then v else assoc_get k fs'
  end.

(** Property access [v.k]; [None] is the TypeError thrown on [null] and
    [undefined]. *)
Definition get_prop (v : jsval) (k : string) : option jsval :=
  match v with
  | JUndef | JNull => None
  | JObj fs => Some (assoc_get k fs)
  | _ => Some JUndef
  end.

(** Strict equality [a === s] against a string. *)
Definition js_eq_str (a : jsval) (s : string) : bool :=
  match a with
  | JStr s' => String.eqb s' s
  | _ => false
  end.

(* ------------------------------------------------------------------ *)
(** ** SheetsView.tsx: [fetchDocumentTransactions] *)

Module SheetsView.

(** The component state that the function reads and writes:
    [transactionsMap] (a [Record<string, Transaction[]>]) and, as an
    observable effect, the list of URLs requested with [api.get].  Each
    call runs to completion, its request answered, before the next one;
    [SheetsAsync] below lets requests be in flight across clicks. *)
Record state := mkState {
  transactionsMap : gmap string jsval;
  requests : list string
}.

Definition initial : state := mkState ∅ [].

(** [transactionsMap[documentId]]: a missing key reads as [undefined]. *)
Definition map_get (m : gmap string jsval) (k : string) : jsval :=
  match m !! k with Some v => v | None => JUndef end.

Definition extract_url (documentId : string) : string :=
  "/transactions/extract/document/" +:+ documentId.

(** The server's answer to [api.get]: [None] when the promise rejects,
    [Some data] for [res.data]. *)
Definition api_get := string -> option jsval.

Definition fetchDocumentTransactions (api : api_get) (documentId : string)
    (s : state) : state :=
  if truthy (map_get (transactionsMap s) documentId) then s (* Already loaded *)
  else
    let url := extract_url documentId in
    let reqs := app (requests s) [url] in
    match api url with
    | Some data =>
        match get_prop data "transactions" with
        | Some txs =>
            mkState (<[documentId := js_or txs (JArr [])]> (transactionsMap s)) reqs
        | None => (* [res.data] is null or undefined: this sequential model
                     stores [[]]; the source's updater throws outside the try
                     block, see [SheetsAsync.answer] *)
            mkState (<[documentId := JArr []]> (transactionsMap s)) reqs
        end
    | None =>
        mkState (<[documentId := JArr []]> (transactionsMap s)) reqs
    end.

(** States reachable from the initial one by calls of the function, with
    any server behaviour at each call. *)
Inductive reachable : state -> Prop :=
| reach_init : reachable initial
| reach_fetch api d s :
    reachable s -> reachable (fetchDocumentTransactions api d s).

(** The invariant of the page state: every stored entry is truthy, a
    document's URL has been requested exactly when its key is present, and
    no URL was requested twice. *)
Definition inv (s : state) : Prop :=
  (forall k v, transactionsMap s !! k = Some v -> truthy v = true) /\
  (forall d, In (extract_url d) (requests s) <-> is_Some (transactionsMap s !! d)) /\
  (forall u, In u (requests s) -> exists d, u = extract_url d) /\
  NoDup (requests s).

End SheetsView.

(* ------------------------------------------------------------------ *)
(** ** DocumentUpload.tsx: [processFiles] *)

Module DocumentUpload.

(** A browser [File]; [file_ref] is its object identity, which the code
    compares with [===]. *)
Record file := mkFile { file_ref : nat; file_name : string }.

Inductive status := Pending | Verified | Rejected | Analyzing.

Record uploadedFile := mkUploaded {
  uf_file : file;
  uf_category : string;
  uf_status : status;
  uf_path : string;
  uf_extractedText : option string
}.

(** An entry of a [FormData]. *)
Inductive formval := FStr (s : string) | FFile (f : file).

Definition form := list (string * formval).

(** The state touched by [processFiles]: the [files] list of the
    component, the alerts shown, and the [api.post] requests sent (URL and
    form). *)
Record state := mkState {
  files : list uploadedFile;
  alerts : list string;
  posts : list (string * form)
}.

Definition alert (msg : string) (s : state) : state :=
  mkState (files s) (app (alerts s) [msg]) (posts s).

(** [!selectedCategory] on a string. *)
Definition str_falsy (s : string) : bool := String.eqb s "".

Definition set_status (f : file) (st : status) (l : list uploadedFile)
    : list uploadedFile :=
  map (fun u => if Nat.eqb (file_ref (uf_file u)) (file_ref f)
                then mkUploaded (uf_file u) (uf_category u) st (uf_path u)
                                (uf_extractedText u)
                else u) l.

Definition upload_form (selectedClientId selectedCategory : string)
    (fileObj : uploadedFile) : form :=
  app [("file", FFile (uf_file fileObj));
       ("client_id", FStr selectedClientId);
       ("folder_category", FStr selectedCategory)]
      match uf_extractedText fileObj with
      | Some t => if str_falsy t then [] else [("extracted_text", FStr t)]
      | None => []
      end.

(** The files a form carries. *)
Definition form_files (fd : form) : list file :=
  flat_map (fun kv => match snd kv with FFile f => [f] | FStr _ => [] end) fd.

(** Whether the server accepts an upload request. *)
Definition post_ok := form -> bool.

(** The [for (const fileObj of processed)] loop: one request per file,
    then the status of the matching entries is updated. *)
Fixpoint upload_loop (ok : post_ok) (selectedClientId selectedCategory : string)
    (processed : list uploadedFile) (s : state) : state :=
  match processed with
  | [] => s
  | fileObj :: rest =>
      let fd := upload_form selectedClientId selectedCategory fileObj in
      let s1 := mkState (files s) (alerts s)
                        (app (posts s) [("/documents/upload", fd)]) in
      let st := if ok fd then Verified else Rejected in
      let s2 := mkState (set_status (uf_file fileObj) st (files s1))
                        (alerts s1) (posts s1) in
      upload_loop ok selectedClientId selectedCategory rest s2
  end.

Definition processFiles (ok : post_ok)
    (selectedCategory selectedClientId : string)
    (newFiles : list file) (extractedText : option string) (s : state) : state :=
  if str_falsy selectedCategory then
    alert "Please select a document category first!" s
  else if str_falsy selectedClientId then
    alert "Client profile not found. Please ensure you have created a profile in the dashboard." s
  else
    let processed :=
      map (fun f => mkUploaded f selectedCategory Analyzing
                      ("Client/" +:+ selectedCategory +:+ "/" +:+ file_name f)
                      extractedText) newFiles in
    let s1 := mkState (app (files s) processed) (alerts s) (posts s) in
    upload_loop ok selectedClientId selectedCategory processed s1.

End DocumentUpload.

(* ------------------------------------------------------------------ *)
(** ** AcceptInvite.tsx: [handleAccept] *)

Module AcceptInvite.

Record user := mkUser { u_id : string; u_role : option string }.

(** [inviteData], set by [verifyToken] from [/share/resolve/:token]. *)
Record invite := mkInvite { resource_id : string }.

(** Outcome of an [api] call: the resolved [res.data], or the rejection
    with [err.response?.data?.detail] ([JUndef] when absent). *)
Inductive response := Ok (data : jsval) | Err (detail : jsval).

(** The observable effects of the handler, in order. *)
Inductive effect :=
| Navigate (url : string)
| SetError (msg : jsval)
| SetAccepting (b : bool)
| ApiGet (url : string)
| ApiPost (url : string) (body : list (string * string)).

Definition is_post (e : effect) : bool :=
  match e with ApiPost _ _ => true | _ => false end.

(** [user?.role] *)
Definition opt_role (u : option user) : option string :=
  match u with Some u => u_role u | None => None end.

(** [x !== 'ca'] for an optional string *)
Definition role_neq_ca (r : option string) : bool :=
  match r with Some r => negb (String.eqb r "ca") | None => true end.

Definition accept_error (detail : jsval) : effect :=
  SetError (js_or detail (JStr "Failed to accept invitation")).

(** The [try] block once the role gate has passed; [finally] adds
    [setAccepting(false)]. *)
Definition accept_body (get post : string -> response) (token : string)
    (inviteData : invite) (u : user) : list effect :=
  let rid := resource_id inviteData in
  let client_url := "/clients/" +:+ rid in
  ApiGet client_url ::
  match get client_url with
  | Err det => [accept_error det]
  | Ok client =>
      match get_prop client "assigned_ca_id" with
      | None => [accept_error JUndef] (* TypeError on [client.assigned_ca_id] *)
      | Some a =>
          if js_eq_str a (u_id u) then [Navigate ("/share/documents/" +:+ rid)]
          else
            ApiPost "/clients/accept-invite" [("token", token); ("client_id", rid)] ::
            match post "/clients/accept-invite" with
            | Ok _ => [Navigate ("/share/documents/" +:+ rid)]
            | Err det => [accept_error det]
            end
      end
  end.

Definition handleAccept (get post : string -> response)
    (isAuthenticated : bool) (u : option user) (token : string)
    (inviteData : invite) : list effect :=
  if negb isAuthenticated then
    [Navigate ("/login?returnUrl=/share/invite/" +:+ token)]
  else if role_neq_ca (opt_role u) then
    [SetError (JStr "Only Chartered Accountants can accept client invitations.")]
  else
    match u with
    | Some u =>
        SetAccepting true ::
          app (accept_body get post token inviteData u) [SetAccepting false]
    | None => [] (* excluded by the role gate *)
    end.

End AcceptInvite.

(* ------------------------------------------------------------------ *)
(** ** The backend pipeline (normalization, classification, compliance,
       anomaly detection) *)

(** Modelled from the spec: the backend services
    [transaction_service.py], [ledger_classifier_service.py],
    [compliance_engine/*] and [red_flag_engine/*] are not part of the
    sources; this module follows the spec's component design (4.1 to 4.4).
    Parsing, hashing and the external services (similarity index,
    model-assisted classifier) are left abstract, as the spec leaves them
    (6. External interfaces). *)
Module Pipeline.

Inductive direction := Credit | Debit.

Inductive mode := Cash | UPI | NEFT | POS | Card.

Definition direction_eqb (a b : direction) : bool :=
  match a, b with Credit, Credit | Debit, Debit => true | _, _ => false end.

Definition mode_is_cash (m : option mode) : bool :=
  match m with Some Cash => true | _ => false end.

(** Amounts are in the smallest currency unit. *)
Record Transaction := mkTransaction {
  tx_id : nat;
  sheet_id : nat;
  date : string;
  description : string;
  amount : Z;
  direction_of : direction;
  vendor : option string;
  gstin : option string;
  payment_mode : option mode;
  dedup_key : string
}.

(** *** 4.1 Normalization *)

Record RawRow := mkRawRow {
  date_text : string;
  description_text : string;
  amount_text : string;
  type_hint : option direction;
  document_id : nat
}.

Inductive ValidationError := InvalidDate | InvalidAmount.

(** The parsing helpers and the stable hash. *)
Record normalizer := mkNormalizer {
  parse_date : string -> option string;
  parse_amount : string -> option Z;
  normalize_description : string -> string;
  infer_direction : Z -> string -> direction;
  stable_hash : nat * string * string * Z * direction -> string
}.

Record store := mkStore { txns : list Transaction; next_id : nat }.

Definition empty_store : store := mkStore [] 0.

Definition same_key (sid : nat) (k : string) (t : Transaction) : bool :=
  Nat.eqb (sheet_id t) sid && String.eqb (dedup_key t) k.

(** [ingest]: parse, compute the dedup key, upsert. *)
Definition ingest (N : normalizer) (sid : nat) (r : RawRow) (st : store)
    : ValidationError + (nat * store) :=
  match parse_date N (date_text r) with
  | None => inl InvalidDate
  | Some d =>
    match parse_amount N (amount_text r) with
    | None => inl InvalidAmount
    | Some a =>
      let desc := normalize_description N (description_text r) in
      let dir := match type_hint r with
                 | Some h => h
                 | None => infer_direction N a (description_text r)
                 end in
      let k := stable_hash N (sid, d, desc, a, dir) in
      match List.find (same_key sid k) (txns st) with
      | Some t => inr (tx_id t, st)           (* no-op: existing id *)
      | None =>
          let t := mkTransaction (next_id st) sid d (description_text r) a dir
                                 None None None k in
          inr (next_id st, mkStore (app (txns st) [t]) (S (next_id st)))
      end
    end
  end.

(** At most one transaction per sheet and dedup key. *)
Definition keys_unique (st : store) : Prop :=
  forall sid k, length (List.filter (same_key sid k) (txns st)) <= 1.

Inductive ingested (N : normalizer) : store -> Prop :=
| ingested_empty : ingested N empty_store
| ingested_step sid r st i st' :
    ingested N st -> ingest N sid r st = inr (i, st') -> ingested N st'.

(** *** 4.2 Classification *)

Inductive tier := RuleTier | SimilarityTier | ModelTier.

Record ClassificationResult := mkClassification {
  cr_category : string;
  cr_confidence : Q;
  cr_tier : tier;
  cr_rationale : string;
  cr_needs_review : bool
}.

(** Thresholds, with the spec's defaults. *)
Record thresholds := mkThresholds { T1 : Q; T2 : Q; T3 : Q }.

Definition default_thresholds : thresholds := mkThresholds (9 # 10) (3 # 4) (1 # 2).

(** The three tiers' back ends: the rule table (category and declared
    confidence of the rule that fires), the per-client similarity index
    (matches best first), and the model-assisted classifier ([None] when
    unavailable or timed out). *)
Record classifier_backends := mkBackends {
  rule_match : Transaction -> option (string * Q);
  nearest : nat -> string -> list (string * Q);
  classify_with_context :
    Transaction -> list (string * Q) -> option (string * Q * string);
  fallback_category : string
}.

(** Tier 3: the model-assisted classifier; an unavailable service or a
    confidence below [T3] is accepted, tagged [needs_review]. *)
Definition model_tier (th : thresholds) (B : classifier_backends)
    (t : Transaction) (examples : list (string * Q)) : ClassificationResult :=
  match classify_with_context B t examples with
  | Some (c, conf, why) =>
      mkClassification c conf ModelTier why (negb (Qle_bool (T3 th) conf))
  | None =>
      mkClassification (fallback_category B) 0 ModelTier "model unavailable" true
  end.

(** Tiers 2 and 3, with the tiers consulted. *)
Definition similarity_then_model (th : thresholds) (B : classifier_backends)
    (client_id : nat) (t : Transaction) : ClassificationResult * list tier :=
  let matches := nearest B client_id (description t) in
  match matches with
  | (c, sim) :: _ =>
      if Qle_bool (T2 th) sim then
        (mkClassification c sim SimilarityTier "similarity match" false,
         [SimilarityTier])
      else (model_tier th B t matches, [SimilarityTier; ModelTier])
  | [] => (model_tier th B t matches, [SimilarityTier; ModelTier])
  end.

(** Whether tier 2's top match reaches [T2]. *)
Definition similarity_accepts (th : thresholds) (B : classifier_backends)
    (client_id : nat) (t : Transaction) : bool :=
  match nearest B client_id (description t) with
  | (_, sim) :: _ => Qle_bool (T2 th) sim
  | [] => false
  end.

(** Tier 1 fires when a rule matches with declared confidence at least
    [T1]. *)
Definition rule_tier (th : thresholds) (B : classifier_backends)
    (t : Transaction) : option (string * Q) :=
  match rule_match B t with
  | Some (c, conf) => if Qle_bool (T1 th) conf then Some (c, conf) else None
  | None => None
  end.

(** [classify] returns its result together with the tiers it consulted,
    in order. *)
Definition classify (th : thresholds) (B : classifier_backends)
    (client_id : nat) (t : Transaction) : ClassificationResult * list tier :=
  match rule_tier th B t with
  | Some (c, conf) => (mkClassification c conf RuleTier "rule match" false, [RuleTier])
  | None =>
      let '(r, consulted) := similarity_then_model th B client_id t in
      (r, RuleTier :: consulted)
  end.

(** *** 4.3 Compliance rule engine *)

Inductive applicability := Applicable | NotApplicable | Unknown.

Record ComplianceFinding := mkFinding {
  cf_transaction_id : nat;
  cf_rule_id : string;
  cf_applicable : applicability;
  cf_section_reference : string;
  cf_reason : string
}.

(** An exception raised by a rule. *)
Inductive rule_exn := RuleException (msg : string).

Record ComplianceRule := mkRule {
  rule_id : string;
  applicability_predicate :
    Transaction -> ClassificationResult -> rule_exn + bool;
  evaluation_function :
    Transaction -> ClassificationResult -> rule_exn + (bool * string);
  section_reference : string
}.

Definition rule_error_finding (t : Transaction) (r : ComplianceRule)
    (e : rule_exn) : ComplianceFinding :=
  let 'RuleException msg := e in
  mkFinding (tx_id t) (rule_id r) Unknown (section_reference r)
            ("ComplianceRuleError: " +:+ msg).

(** One rule: a throw in the predicate or in the evaluation becomes a
    [ComplianceRuleError] finding; an inapplicable rule yields none. *)
Definition eval_rule (t : Transaction) (c : ClassificationResult)
    (r : ComplianceRule) : list ComplianceFinding :=
  match applicability_predicate r t c with
  | inl e => [rule_error_finding t r e]
  | inr false => []
  | inr true =>
      match evaluation_function r t c with
      | inl e => [rule_error_finding t r e]
      | inr (b, reason) =>
          [mkFinding (tx_id t) (rule_id r)
                     (if b then Applicable else NotApplicable)
                     (section_reference r) reason]
      end
  end.

Definition is_unknown (f : ComplianceFinding) : bool :=
  match cf_applicable f with Unknown => true | _ => false end.

Record evaluation := mkEvaluation {
  findings : list ComplianceFinding;
  needs_manual_review : bool
}.

(** [evaluate(transaction, classification)] against a rule table. *)
Definition evaluate (rules : list ComplianceRule) (t : Transaction)
    (c : ClassificationResult) : evaluation :=
  let fs := flat_map (eval_rule t c) rules in
  mkEvaluation fs (existsb is_unknown fs).

Definition rule_throws (t : Transaction) (c : ClassificationResult)
    (r : ComplianceRule) : bool :=
  match applicability_predicate r t c with
  | inl _ => true
  | inr false => false
  | inr true =>
      match evaluation_function r t c with inl _ => true | inr _ => false end
  end.

(** *** 4.4 Anomaly detector *)

Inductive severity := Low | Medium | High | Critical.

Inductive flag_type :=
  DuplicateFlag | CashLimitFlag | SuspiciousVendorFlag | GstMismatchFlag | PatternFlag.

Definition is_cash_limit (ft : flag_type) : bool :=
  match ft with CashLimitFlag => true | _ => false end.

Record RedFlag := mkRedFlag {
  rf_transaction_id : nat;
  rf_flag_type : flag_type;
  rf_severity : severity;
  rf_message : string;
  rf_resolved : bool
}.

(** The configured limit and the detectors' tolerances and data sources,
    which the spec leaves configurable. *)
Record detector_config := mkDetectorConfig {
  cash_limit : Z;
  description_similar : string -> string -> bool;
  within_window : string -> string -> bool;
  gstin_well_formed : string -> bool;
  known_vendor : string -> bool;
  declared_itc : Transaction -> option Z;
  reconciled_itc : option (Transaction -> option Z);
  outlier : Transaction -> list Transaction -> option severity
}.

Definition flag (t : Transaction) (ft : flag_type) (sev : severity)
    (msg : string) : RedFlag :=
  mkRedFlag (tx_id t) ft sev msg false.

Definition duplicate_detector (D : detector_config) (t : Transaction)
    (neighborhood : list Transaction) : list RedFlag :=
  if existsb (fun u => String.eqb (dedup_key u) (dedup_key t)
                       || (Z.eqb (amount u) (amount t)
                           && direction_eqb (direction_of u) (direction_of t)
                           && description_similar D (description u) (description t)
                           && within_window D (date u) (date t)))
             neighborhood
  then [flag t DuplicateFlag Medium "possible duplicate transaction"]
  else [].

Definition cash_limit_checker (D : detector_config) (t : Transaction)
    : list RedFlag :=
  if mode_is_cash (payment_mode t) && Z.ltb (cash_limit D) (amount t)
  then [flag t CashLimitFlag High "cash payment exceeds the disallowance limit"]
  else [].

Definition suspicious_vendor_detector (D : detector_config) (t : Transaction)
    : list RedFlag :=
  app match gstin t with
      | Some g => if gstin_well_formed D g then []
                  else [flag t SuspiciousVendorFlag High "malformed GSTIN"]
      | None => []
      end
      match vendor t with
      | Some v => if known_vendor D v then []
                  else [flag t SuspiciousVendorFlag Medium "unknown vendor"]
      | None => []
      end.

Definition gst_mismatch_detector (D : detector_config) (t : Transaction)
    : list RedFlag :=
  match reconciled_itc D with
  | None => []
  | Some recon =>
      match declared_itc D t, recon t with
      | Some a, Some b =>
          if Z.eqb a b then []
          else [flag t GstMismatchFlag High "declared ITC differs from reconciled"]
      | _, _ => []
      end
  end.

Definition pattern_detector (D : detector_config) (t : Transaction)
    (neighborhood : list Transaction) : list RedFlag :=
  match outlier D t neighborhood with
  | Some sev => [flag t PatternFlag sev "amount is a statistical outlier"]
  | None => []
  end.

(** The cash-limit flags among a list of flags. *)
Definition cash_flags (l : list RedFlag) : list RedFlag :=
  List.filter (fun f => is_cash_limit (rf_flag_type f)) l.

(** [scan(transaction, neighborhood)]: all detectors, concatenated. *)
Definition scan (D : detector_config) (t : Transaction)
    (neighborhood : list Transaction) : list RedFlag :=
  app (duplicate_detector D t neighborhood)
    (app (cash_limit_checker D t)
       (app (suspicious_vendor_detector D t)
          (app (gst_mismatch_detector D t) (pattern_detector D t neighborhood)))).

End Pipeline.

(* ------------------------------------------------------------------ *)
(** ** 3 and 4.5: the stored entities and the audit / override ledger *)

(** Modelled from the spec: the services that store the pipeline's
    results are not part of the sources.  The tables hold the entities of
    the data model (3); the operations are the public operations of the
    components (4.1 [ingest], 4.2 [classify] and reclassification, 4.3
    [evaluate], 4.4 [scan], 4.5 [override]), a reviewer's resolution of a
    red flag (4.4) and the soft retirement of a transaction (3).
    Timestamps are a clock that [Tick] advances; ids are counters. *)
Module Ledger.
Import Pipeline.

(** A stored [ClassificationResult] (3): the classifier's answer, the
    transaction it classifies, its version and its [superseded_by]
    pointer (the version that replaced it).  The classifier of 4.2 returns
    no law references, so none are stored. *)
Record ClassificationVersion := mkVersion {
  cv_transaction_id : nat;
  cv_version : nat;
  cv_result : ClassificationResult;
  cv_created_at : nat;
  cv_superseded_by : option nat
}.

(** A stored [ComplianceFinding], with the classification version it was
    derived from (3). *)
Record StoredFinding := mkStoredFinding {
  sf_classification_version : nat;
  sf_finding : ComplianceFinding
}.

(** A stored [RedFlag] with its id.  A reviewer's resolution sets
    [rf_resolved]; the reviewer's note is the reason of the AuditEntry
    that records the resolution (4.4: resolved only through an explicit
    reviewer action recorded in the Audit Ledger). *)
Record StoredFlag := mkStoredFlag {
  fl_id : nat;
  fl_flag : RedFlag
}.

Inductive subject_type := SubjTransaction | SubjClassification | SubjFinding | SubjRedFlag.

Inductive audit_action := Reclassify | Override | Resolve | Retire.

Record AuditEntry := mkAuditEntry {
  ae_id : nat;
  ae_subject_type : subject_type;
  ae_subject_id : nat;
  ae_actor : string;
  ae_action : audit_action;
  ae_previous_version : option nat;
  ae_new_version : option nat;
  ae_reason : option string;
  ae_timestamp : nat
}.

Record ledger := mkLedger {
  transactions : store;
  versions : list ClassificationVersion;
  stored_findings : list StoredFinding;
  flags : list StoredFlag;
  audit : list AuditEntry;
  next_flag_id : nat;
  next_audit_id : nat;
  clock : nat
}.

Definition empty_ledger : ledger := mkLedger empty_store [] [] [] [] 0 0 0.

Inductive ledger_error :=
| LValidation (e : ValidationError)
| UnknownSubject
| ConflictError              (* the override targets a superseded version *)
| NoActiveClassification.    (* 5: classification comes before evaluation *)

Inductive op :=
| Ingest (sid : nat) (r : RawRow)
| Classify (tid client_id : nat)
| OverrideClassification (tid expected : nat) (value : ClassificationResult)
    (actor reason : string)
| Evaluate (tid : nat)
| OverrideFinding (tid : nat) (f : ComplianceFinding) (actor reason : string)
| Scan (tid : nat) (neighborhood : list nat)
| ResolveFlag (flag_id : nat) (actor reason : string)
| RetireTransaction (tid : nat) (actor reason : string)
| Tick.

Definition find_txn (l : ledger) (tid : nat) : option Transaction :=
  List.find (fun t => Nat.eqb (tx_id t) tid) (txns (transactions l)).

(** The active version of a transaction: the one not superseded. *)
Definition is_active_of (tid : nat) (x : ClassificationVersion) : bool :=
  Nat.eqb (cv_transaction_id x) tid &&
  match cv_superseded_by x with None => true | Some _ => false end.

Definition active_version (l : ledger) (tid : nat) : option ClassificationVersion :=
  List.find (is_active_of tid) (versions l).

Definition max_version (tid : nat) (vs : list ClassificationVersion) : nat :=
  fold_right (fun x m => if Nat.eqb (cv_transaction_id x) tid
                         then Nat.max (cv_version x) m else m) 0 vs.

Definition set_superseded (x : ClassificationVersion) (p : option nat)
    : ClassificationVersion :=
  mkVersion (cv_transaction_id x) (cv_version x) (cv_result x) (cv_created_at x) p.

(** Reclassification (4.2, 4.5): the new version gets the next number and
    the active version's [superseded_by] is set to it. *)
Definition supersede (tid n : nat) (x : ClassificationVersion) : ClassificationVersion :=
  if is_active_of tid x then set_superseded x (Some n) else x.

Definition add_version (tid : nat) (res : ClassificationResult) (now : nat)
    (vs : list ClassificationVersion) : list ClassificationVersion :=
  let n := S (max_version tid vs) in
  app (map (supersede tid n) vs) [mkVersion tid n res now None].

Definition set_resolved (x : StoredFlag) (b : bool) : StoredFlag :=
  let f := fl_flag x in
  mkStoredFlag (fl_id x)
    (mkRedFlag (rf_transaction_id f) (rf_flag_type f) (rf_severity f) (rf_message f) b).

Definition with_audit (l : ledger) (st : subject_type) (sid : nat) (actor : string)
    (act : audit_action) (prev new : option nat) (reason : option string) : ledger :=
  mkLedger (transactions l) (versions l) (stored_findings l) (flags l)
    (app (audit l) [mkAuditEntry (next_audit_id l) st sid actor act prev new reason
                                  (clock l)])
    (next_flag_id l) (S (next_audit_id l)) (clock l).

Definition with_versions (l : ledger) (vs : list ClassificationVersion) : ledger :=
  mkLedger (transactions l) vs (stored_findings l) (flags l) (audit l)
    (next_flag_id l) (next_audit_id l) (clock l).


Section Operations.

Variable N : normalizer.
Variable th : thresholds.
Variable B : classifier_backends.
Variable rules : list ComplianceRule.
Variable D : detector_config.

Definition apply_op (o : op) (l : ledger) : ledger_error + ledger :=
  match o with
  | Ingest sid r =>
      match ingest N sid r (transactions l) with
      | inl e => inl (LValidation e)
      | inr (_, st) =>
          inr (mkLedger st (versions l) (stored_findings l) (flags l) (audit l)
                 (next_flag_id l) (next_audit_id l) (clock l))
      end
  | Classify tid client_id =>
      match find_txn l tid with
      | None => inl UnknownSubject
      | Some t =>
          let res := fst (classify th B client_id t) in
          let n := S (max_version tid (versions l)) in
          let l1 := with_versions l (add_version tid res (clock l) (versions l)) in
          match active_version l tid with
          | None => inr l1                    (* the first classification *)
          | Some a =>
              inr (with_audit l1 SubjClassification tid "classifier" Reclassify
                     (Some (cv_version a)) (Some n) None)
          end
      end
  | OverrideClassification tid expected value actor reason =>
      match find_txn l tid with
      | None => inl UnknownSubject
      | Some _ =>
          match active_version l tid with
          | Some a =>
              if Nat.eqb (cv_version a) expected then
                let n := S (max_version tid (versions l)) in
                inr (with_audit
                       (with_versions l (add_version tid value (clock l) (versions l)))
                       SubjClassification tid actor Override (Some expected) (Some n)
                       (Some reason))
              else inl ConflictError
          | None => inl ConflictError
          end
      end
  | Evaluate tid =>
      match find_txn l tid, active_version l tid with
      | Some t, Some a =>
          let fs := findings (evaluate rules t (cv_result a)) in
          inr (mkLedger (transactions l) (versions l)
                 (app (stored_findings l) (map (mkStoredFinding (cv_version a)) fs))
                 (flags l) (audit l) (next_flag_id l) (next_audit_id l) (clock l))
      | None, _ => inl UnknownSubject
      | Some _, None => inl NoActiveClassification
      end
  | OverrideFinding tid f actor reason =>
      match find_txn l tid, active_version l tid with
      | Some _, Some a =>
          let l1 := mkLedger (transactions l) (versions l)
                      (app (stored_findings l) [mkStoredFinding (cv_version a) f])
                      (flags l) (audit l) (next_flag_id l) (next_audit_id l) (clock l) in
          inr (with_audit l1 SubjFinding tid actor Override (Some (cv_version a))
                 (Some (cv_version a)) (Some reason))
      | None, _ => inl UnknownSubject
      | Some _, None => inl NoActiveClassification
      end
  | Scan tid neighborhood =>
      match find_txn l tid with
      | None => inl UnknownSubject
      | Some t =>
          let nb := flat_map (fun i => match find_txn l i with
                                       | Some u => [u] | None => [] end) neighborhood in
          let fs := scan D t nb in
          let stored := zip_with mkStoredFlag (seq (next_flag_id l) (length fs)) fs in
          inr (mkLedger (transactions l) (versions l) (stored_findings l)
                 (app (flags l) stored) (audit l) (next_flag_id l + length fs)
                 (next_audit_id l) (clock l))
      end
  | ResolveFlag fid actor reason =>
      if existsb (fun x => Nat.eqb (fl_id x) fid) (flags l) then
        let l1 := mkLedger (transactions l) (versions l) (stored_findings l)
                    (map (fun x => if Nat.eqb (fl_id x) fid then set_resolved x true else x)
                         (flags l))
                    (audit l) (next_flag_id l) (next_audit_id l) (clock l) in
        inr (with_audit l1 SubjRedFlag fid actor Resolve None None (Some reason))
      else inl UnknownSubject
  | RetireTransaction tid actor reason =>
      match find_txn l tid with
      | None => inl UnknownSubject
      | Some _ => inr (with_audit l SubjTransaction tid actor Retire None None (Some reason))
      end
  | Tick =>
      inr (mkLedger (transactions l) (versions l) (stored_findings l) (flags l) (audit l)
             (next_flag_id l) (next_audit_id l) (S (clock l)))
  end.

(** The states reached from the empty ledger by operations that
    succeed; a failed operation changes nothing. *)
Inductive reachable : ledger -> Prop :=
| reach_empty : reachable empty_ledger
| reach_op o l l' : reachable l -> apply_op o l = inr l' -> reachable l'.

End Operations.






End Ledger.


(* ------------------------------------------------------------------ *)
(** ** SheetsView.tsx: expanding folders and documents, grouping by date *)

Module SheetsPage.
Import SheetsView.

(** [toggleClient], [toggleYear] and [toggleMonth] share one body:
    [const n = new Set(old); n.has(k) ? n.delete(k) : n.add(k)]. *)
Definition toggle (expanded : gset string) (k : string) : gset string :=
  if decide (k ∈ expanded) then expanded ∖ {[k]} else {[k]} ∪ expanded.

Definition toggleClient := toggle.
Definition toggleYear := toggle.
Definition toggleMonth := toggle.

(** The [Document] fields the page reads; [original_filename?.endsWith]
    reads [undefined] as falsy. *)
Record document := mkDocument {
  doc_id : string;
  original_filename : option string;
  file_type : string;
  created_at : string
}.

(** [s.endsWith(suffix)] *)
Definition ends_with (suffix s : string) : bool :=
  (String.length suffix <=? String.length s)%nat &&
  String.eqb (String.substring (String.length s - String.length suffix)
                        (String.length suffix) s) suffix.

Definition shouldShowTransactions (doc : document) : bool :=
  String.eqb (file_type doc) "bank_statement" ||
  match original_filename doc with Some n => ends_with ".xlsx" n | None => false end.

(** [toggleDocument]: the expanded-document set and the state of
    [fetchDocumentTransactions], which it awaits when expanding. *)
Definition toggleDocument (api : api_get) (documentId : string) (doc : document)
    (expanded : gset string) (s : state) : gset string * state :=
  if decide (documentId ∈ expanded) then (expanded ∖ {[documentId]}, s)
  else
    ({[documentId]} ∪ expanded,
     if String.eqb (file_type doc) "bank_statement" ||
        match original_filename doc with
        | Some n => ends_with ".xlsx" n | None => false end
     then fetchDocumentTransactions api documentId s
     else s).

(** A plain object used as a map, in insertion order:
    [obj[k]] with a default for a missing key, and
    [if (!obj[k]) obj[k] = d; obj[k] = f(obj[k])]. *)
Fixpoint lookup_or {V} (d : V) (k : string) (l : list (string * V)) : V :=
  match l with
  | [] => d
  | (k', v) :: l' => if String.eqb k k' then v else lookup_or d k l'
  end.

Fixpoint assoc_upd {V} (k : string) (f : V -> V) (d : V)
    (l : list (string * V)) : list (string * V) :=
  match l with
  | [] => [(k, f d)]
  | (k', v) :: l' =>
      if String.eqb k k' then (k', f v) :: l' else (k', v) :: assoc_upd k f d l'
  end.

(** The documents of a client grouped by year, then month. *)
Definition organized := list (string * list (string * list document)).

Section Organize.

(** [new Date(created_at)] read back as [getFullYear().toString()] and
    [toLocaleString('default', {month: 'long'})]; the result depends on
    the browser's time zone and locale, so it is a parameter.  Neither a
    year nor a month name is a property of [Object.prototype], so a new
    key of [organized] reads as missing. *)
Variable date_parts : string -> string * string.

(** The body of [docs.forEach] in [fetchData]. *)
Definition push_doc (org : organized) (doc : document) : organized :=
  let '(year, month) := date_parts (created_at doc) in
  assoc_upd year (fun months =>
    assoc_upd month (fun ds => app ds [doc]) [] months) [] org.

Definition organize (docs : list document) : organized :=
  fold_left push_doc docs [].

End Organize.

(** The grouped documents as the JavaScript object stored in
    [documentsMap[client.id]]. *)
Definition document_js (doc : document) : jsval :=
  JObj [("id", JStr (doc_id doc));
        ("original_filename",
          match original_filename doc with Some n => JStr n | None => JUndef end);
        ("file_type", JStr (file_type doc));
        ("created_at", JStr (created_at doc))].

Definition organized_js (org : organized) : jsval :=
  JObj (map (fun ym => (fst ym,
          JObj (map (fun md => (fst md, JArr (map document_js (snd md)))) (snd ym))))
        org).

(** [Object.values(o)] of an object. *)
Definition object_values (v : jsval) : list jsval :=
  match v with JObj fs => map snd fs | _ => [] end.

(** [xs.flat(depth)]: only arrays are spread. *)
Fixpoint js_flat (depth : nat) (xs : list jsval) : list jsval :=
  match depth with
  | O => xs
  | S d => flat_map (fun v => match v with JArr ys => js_flat d ys | _ => [v] end) xs
  end.

(** [const totalDocs = Object.values(clientDocs).flat(2).length], shown as
    "[totalDocs] documents" in the client's header. *)
Definition totalDocs (clientDocs : jsval) : nat :=
  length (js_flat 2 (object_values clientDocs)).

(** [v[k]] on an object read as a map. *)
Definition js_index (v : jsval) (k : string) : jsval :=
  match v with JObj fs => assoc_get k fs | _ => JUndef end.

(** [Object.values(clientDocs[year]).flat().length], shown as
    "[n] documents" in the header of a year. *)
Definition yearDocs (clientDocs : jsval) (year : string) : nat :=
  length (js_flat 1 (object_values (js_index clientDocs year))).

End SheetsPage.

(* ------------------------------------------------------------------ *)
(** ** SheetsView.tsx: document expansion with its pending requests *)

(** [toggleDocument] and [fetchDocumentTransactions] as the browser runs
    them: a click runs [toggleDocument] up to its [await] on [api.get];
    the request is answered later, in any order, and only then are
    [transactionsMap] and [expandedDocuments] set.  The click reads the
    state of the last render ([transactionsMap], [expandedDocuments]);
    React renders between two events, so this is the latest state.  The
    row's [onClick] has no guard against a request in flight. *)
Module SheetsAsync.
Import SheetsView SheetsPage.







End SheetsAsync.

(* ------------------------------------------------------------------ *)
(** ** DocumentUpload.tsx: upload statuses, removal, drops, imports *)

Module UploadPage.
Import DocumentUpload.

(** An entry of [processed] in [processFiles], before its upload. *)
Definition processed_entry (selectedCategory : string) (extractedText : option string)
    (f : file) : uploadedFile :=
  mkUploaded f selectedCategory Analyzing
             ("Client/" +:+ selectedCategory +:+ "/" +:+ file_name f) extractedText.

(** The entry once its upload has been answered. *)
Definition uploaded_entry (ok : post_ok) (selectedClientId selectedCategory : string)
    (u : uploadedFile) : uploadedFile :=
  mkUploaded (uf_file u) (uf_category u)
             (if ok (upload_form selectedClientId selectedCategory u)
              then Verified else Rejected)
             (uf_path u) (uf_extractedText u).

(** [removeFile(index)]: [prev.filter((_, i) => i !== index)]. *)
Fixpoint filter_index {A} (index : Z) (i : Z) (l : list A) : list A :=
  match l with
  | [] => []
  | x :: l' =>
      if Z.eqb i index then filter_index index (i + 1) l'
      else x :: filter_index index (i + 1) l'
  end.

Definition removeFile (index : Z) (s : state) : state :=
  mkState (filter_index index 0 (files s)) (alerts s) (posts s).

(** [handleDrop] and [handleChange]: [if (files && files[0])
    processFiles(Array.from(files))]; [None] is a missing [FileList].
    [handleDrop] also clears [dragActive]. *)
Definition handleChange (ok : post_ok) (selectedCategory selectedClientId : string)
    (fileList : option (list file)) (s : state) : state :=
  match fileList with
  | Some (f :: fs) => processFiles ok selectedCategory selectedClientId (f :: fs) None s
  | _ => s
  end.

Definition handleDrop (ok : post_ok) (selectedCategory selectedClientId : string)
    (fileList : option (list file)) (s : state) : bool * state :=
  (false, handleChange ok selectedCategory selectedClientId fileList s).

(** [INTEGRATIONS]: id, name and [requiresAuth]. *)
Definition INTEGRATIONS : list (string * string * bool) :=
  [("google-sheets", "Google Sheets", true); ("zoho-books", "Zoho Books", true);
   ("tally", "Tally", false); ("khatabook", "Khatabook", false)].

Definition integration_name (platform : string) : jsval :=
  match List.find (fun i => String.eqb (fst (fst i)) platform) INTEGRATIONS with
  | Some i => JStr (snd (fst i))
  | None => JUndef
  end.

(** The effects of [handleIntegrationImport], in order. *)
Inductive import_effect :=
| ImportAlert (msg : string)
| ImportFailedAlert (shown : jsval) (* alert(`Import failed: ${shown}`) *)
| ImportSuccessAlert (name : jsval) (* alert(`Successfully imported from ${name}!`) *)
| SetImporting (b : bool)
| ImportPost (url : string) (body : form)
| CloseModal.

(** The server's answer to [api.post]: [inl (detail, message)] for a
    rejection, with [error.response?.data?.detail] and [error.message]. *)
Definition import_api := string -> jsval * string + unit.

Definition import_failed (e : jsval * string) : import_effect :=
  ImportFailedAlert (js_or (fst e) (JStr (snd e))).

(** [integrationModal.platform] and [integrationData]. *)
Record integration_data := mkIntegrationData {
  apiKey : string;
  organizationId : string;
  import_file : option file
}.

(** The [try] block after [setImporting(true)]. *)
Definition import_body (post : import_api) (selectedClientId platform : string)
    (d : integration_data) : list import_effect :=
  if String.eqb platform "zoho-books" then
    if str_falsy (apiKey d) || str_falsy (organizationId d) then
      [ImportAlert "Please provide API Key and Organization ID"]
    else
      let body := [("client_id", FStr selectedClientId); ("api_key", FStr (apiKey d));
                   ("organization_id", FStr (organizationId d))] in
      ImportPost "/import/zoho-books" body ::
      match post "/import/zoho-books" with
      | inl e => [import_failed e]
      | inr _ => [ImportAlert "Successfully imported from Zoho Books!"; CloseModal]
      end
  else if String.eqb platform "khatabook" || String.eqb platform "tally" ||
          String.eqb platform "google-sheets" then
    match import_file d with
    | None => [ImportAlert "Please select a file to import"]
    | Some f =>
        let body := [("file", FFile f); ("client_id", FStr selectedClientId)] in
        let endpoint := if String.eqb platform "khatabook" then "/import/khatabook"
                        else "/import/excel-csv" in
        ImportPost endpoint body ::
        match post endpoint with
        | inl e => [import_failed e]
        | inr _ => [ImportSuccessAlert (integration_name platform); CloseModal]
        end
    end
  else [CloseModal].

Definition handleIntegrationImport (post : import_api)
    (selectedClientId platform : string) (d : integration_data) : list import_effect :=
  if str_falsy selectedClientId then [ImportAlert "Client profile not found"]
  else SetImporting true :: app (import_body post selectedClientId platform d)
                                [SetImporting false].

Definition is_import_post (e : import_effect) : bool :=
  match e with ImportPost _ _ => true | _ => false end.

(** The platforms whose import sends a request. *)
Definition import_platform (platform : string) : bool :=
  String.eqb platform "zoho-books" || String.eqb platform "khatabook" ||
  String.eqb platform "tally" || String.eqb platform "google-sheets".

(** The file identities in an upload list, in order. *)
Definition refs (l : list uploadedFile) : list nat := map (fun u => file_ref (uf_file u)) l.

End UploadPage.

(* ------------------------------------------------------------------ *)
(** ** AcceptInvite.tsx: token verification, and the Signup form *)

Module InvitePage.
Import AcceptInvite.

(** The effects of the mount effect and of [verifyToken], in order. *)
Inductive verify_effect :=
| VApiGet (url : string)
| VSetError (msg : jsval)
| VSetLoading (b : bool)
| VSetInviteData (data : jsval).

(** The [try] block of [verifyToken]; [finally] adds [setLoading(false)]. *)
Definition verify_body (get : string -> response) (token : string) : list verify_effect :=
  let url := "/share/resolve/" +:+ token in
  VApiGet url ::
  match get url with
  | Err _ => [VSetError (JStr "Failed to verify invitation")]
  | Ok data =>
      if negb (truthy data) then
        [VSetError (JStr "Failed to verify invitation - no response from server");
         VSetLoading false]
      else
        match get_prop data "valid", get_prop data "error",
              get_prop data "resource_type" with
        | Some valid, Some err, Some rtype =>
            if negb (truthy valid) then
              [VSetError (js_or err (JStr "Invalid or expired link")); VSetLoading false]
            else if negb (js_eq_str rtype "client") then
              [VSetError (JStr "This link is not for a client invitation");
               VSetLoading false]
            else [VSetInviteData data]
        | _, _, _ => (* TypeError, caught *)
            [VSetError (JStr "Failed to verify invitation")]
        end
  end.

Definition verifyToken (get : string -> response) (token : string) : list verify_effect :=
  app (verify_body get token) [VSetLoading false].

(** The mount effect: [if (!token) { setError(...); setLoading(false);
    return; } verifyToken();]; [useParams] gives [undefined] for a
    missing token. *)
Definition onMount (get : string -> response) (token : option string)
    : list verify_effect :=
  match token with
  | Some t => if String.eqb t "" then
                [VSetError (JStr "Invalid invite link"); VSetLoading false]
              else verifyToken get t
  | None => [VSetError (JStr "Invalid invite link"); VSetLoading false]
  end.

(** [s.toLowerCase()] on ASCII text. *)
Definition lower_ascii (c : Ascii.ascii) : Ascii.ascii :=
  let n := Ascii.nat_of_ascii c in
  if (65 <=? n)%nat && (n <=? 90)%nat then Ascii.ascii_of_nat (n + 32) else c.

Fixpoint toLowerCase (s : string) : string :=
  match s with
  | EmptyString => EmptyString
  | String c s' => String (lower_ascii c) (toLowerCase s')
  end.

(** The effects of the [Signup] form's [handleSubmit]. *)
Inductive signup_effect :=
| SSetError (msg : jsval)
| SSetLoading (b : bool)
| SPost (url : string) (body : list (string * string))
| SNavigate (url : string).

(** [(e.target as any).role.value]; [None] when the form has no [role]
    field, where reading [.value] throws. *)
Definition handleSubmit (post : string -> response) (name email password : string)
    (roleValue : option string) : list signup_effect :=
  SSetError (JStr "") :: SSetLoading true ::
  app match roleValue with
      | None => [SSetError (JStr "Failed to create account")]
      | Some v =>
          let role := toLowerCase v in
          let finalRole :=
            if negb (String.eqb role "client") && negb (String.eqb role "ca")
            then "ca" else role in
          SPost "/auth/signup" [("name", name); ("email", email);
                                ("password", password); ("role", finalRole)] ::
          match post "/auth/signup" with
          | Ok _ => [SNavigate "/login"]
          | Err det => [SSetError (js_or det (JStr "Failed to create account"))]
          end
      end
      [SSetLoading false].

End InvitePage.

(* ================================================================== *)
(** * Sample inputs *)

Module Examples.

(** A normalizer whose dedup key is the date followed by the description. *)
Definition normalizer : Pipeline.normalizer :=
  Pipeline.mkNormalizer Some (fun _ => Some 100%Z) (fun d => d)
    (fun _ _ => Pipeline.Debit)
    (fun k => let '(_, d, desc, _, _) := k in d +:+ desc).

Definition rent_row : Pipeline.RawRow :=
  Pipeline.mkRawRow "2024-01-15" "Office Rent" "100" None 7.

Definition rent_store : Pipeline.store :=
  Pipeline.mkStore
    [Pipeline.mkTransaction 0 0 "2024-01-15" "Office Rent" 100 Pipeline.Debit
       None None None "2024-01-15Office Rent"] 1.

(** A cash limit of 10,000 in paise. *)
Definition detectors : Pipeline.detector_config :=
  Pipeline.mkDetectorConfig 1000000 (fun _ _ => false) (fun _ _ => false)
    (fun _ => true) (fun _ => true) (fun _ => None) None (fun _ _ => None).

Definition cash_txn : Pipeline.Transaction :=
  Pipeline.mkTransaction 1 0 "2024-03-01" "Cash payment" 2500000 Pipeline.Debit
    None None (Some Pipeline.Cash) "k1".

Definition rent_rule_backends : Pipeline.classifier_backends :=
  Pipeline.mkBackends (fun _ => Some ("Rent", 95 # 100)) (fun _ _ => [])
    (fun _ _ => None) "Uncategorized".

Definition rent_classification : Pipeline.ClassificationResult :=
  Pipeline.mkClassification "Rent" (95 # 100) Pipeline.RuleTier "rule match" false.

(** A rule whose applicability predicate throws. *)
Definition throwing_rule : Pipeline.ComplianceRule :=
  Pipeline.mkRule "194C"
    (fun _ _ => inl (Pipeline.RuleException "cumulative payments unavailable"))
    (fun _ _ => inr (true, "applies")) "Section 194C".


End Examples.

(** A run of the ledger operations on the sample pipeline: the rent row
    is ingested, classified, then overridden by a reviewer at its active
    version, and retired. *)
Module LedgerExamples.

Definition apply (o : Ledger.op) (l : Ledger.ledger) : Ledger.ledger + Ledger.ledger :=
  match Ledger.apply_op Examples.normalizer Pipeline.default_thresholds
          Examples.rent_rule_backends [] Examples.detectors o l with
  | inr l' => inr l'
  | inl _ => inl l
  end.

Definition step (o : Ledger.op) (l : Ledger.ledger) : Ledger.ledger :=
  match apply o l with inr l' => l' | inl l0 => l0 end.

Definition ingest_op : Ledger.op := Ledger.Ingest 0 Examples.rent_row.

Definition ingested : Ledger.ledger := step ingest_op Ledger.empty_ledger.

End LedgerExamples.

(** Sample inputs of the page handlers. *)
Module PageExamples.

(** A bank statement uploaded as a spreadsheet. *)
Definition bank_doc : SheetsPage.document :=
  SheetsPage.mkDocument "doc1" (Some "statement.xlsx") "bank_statement" "2024-01-15".

(** A server that returns one transaction for every document. *)
Definition tx_api : SheetsView.api_get :=
  fun _ => Some (JObj [("transactions", JArr [JNum 1])]).

(** A client profile assigned to another accountant. *)
Definition other_ca_client : AcceptInvite.response :=
  AcceptInvite.Ok (JObj [("assigned_ca_id", JStr "u2")]).

Definition ca_user : AcceptInvite.user := AcceptInvite.mkUser "u1" (Some "ca").

Definition upload_start : DocumentUpload.state :=
  DocumentUpload.mkState
    [DocumentUpload.mkUploaded (DocumentUpload.mkFile 0 "old.pdf") "Invoices"
       DocumentUpload.Verified "Client/Invoices/old.pdf" None] [] [].

Definition new_files : list DocumentUpload.file :=
  [DocumentUpload.mkFile 1 "a.pdf"; DocumentUpload.mkFile 2 "b.pdf"].

(** Dates read back in a locale where the year is the first four
    characters and every month is January. *)
Definition jan_dates (created : string) : string * string :=
  (String.substring 0 4 created, "January").

Definition sheet_docs : list SheetsPage.document :=
  [bank_doc;
   SheetsPage.mkDocument "doc2" (Some "invoice.pdf") "invoice" "2024-02-03";
   SheetsPage.mkDocument "doc3" None "receipt" "2023-12-30"].

End PageExamples.

(* ================================================================== *)
(** * Properties *)

Module SheetsViewProofs.
Import SheetsView.

Lemma js_or_truthy a b : truthy b = true -> truthy (js_or a b) = true.
Proof. unfold js_or. destruct (truthy a) eqn:E; auto. Qed.

Lemma extract_url_inj d1 d2 : extract_url d1 = extract_url d2 -> d1 = d2.
Proof. unfold extract_url. intros H. by apply (inj (String.append _)) in H. Qed.

Lemma inv_initial : inv initial.
Proof.
  unfold inv, initial; simpl. repeat split.
  - intros k v H. by rewrite lookup_empty in H.
  - intros [].
  - intros [? H]. by rewrite lookup_empty in H.
  - intros u [].
  - constructor.
Qed.

Lemma inv_insert (s : state) d v :
  inv s -> transactionsMap s !! d = None -> truthy v = true ->
  inv (mkState (<[d := v]> (transactionsMap s)) (app (requests s) [extract_url d])).
Proof.
  intros (Htr & Hreq & Hurl & Hnd) Hnone Hv. unfold inv; simpl. repeat split.
  - intros k w Hk. destruct (decide (k = d)) as [->|Hne].
    + rewrite lookup_insert_eq in Hk. by injection Hk as <-.
    + rewrite lookup_insert_ne in Hk by congruence. eauto.
  - intros Hin. apply in_app_or in Hin as [Hin|[Heq|[]]].
    + destruct (decide (d0 = d)) as [->|Hne].
      * rewrite lookup_insert_eq. eauto.
      * rewrite lookup_insert_ne by congruence. by apply Hreq.
    + apply extract_url_inj in Heq as ->. rewrite lookup_insert_eq. eauto.
  - intros Hs. apply in_or_app. destruct (decide (d0 = d)) as [->|Hne].
    + right. left. reflexivity.
    + left. apply Hreq. by rewrite lookup_insert_ne in Hs by congruence.
  - intros u Hin. apply in_app_or in Hin as [Hin|[<-|[]]]; eauto.
  - apply NoDup_app. split; [exact Hnd|]. split.
    + intros u Hu Hu'. apply list_elem_of_In in Hu, Hu'.
      destruct Hu' as [<-|[]].
      apply Hreq in Hu. rewrite Hnone in Hu. by destruct Hu.
    + apply NoDup_singleton.
Qed.

Lemma inv_fetch api d s : inv s -> inv (fetchDocumentTransactions api d s).
Proof.
  intros Hinv. unfold fetchDocumentTransactions.
  destruct (truthy (map_get (transactionsMap s) d)) eqn:Ht; [exact Hinv|].
  assert (Hnone : transactionsMap s !! d = None).
  { unfold map_get in Ht. destruct (transactionsMap s !! d) eqn:E; [|reflexivity].
    destruct Hinv as [Htr _]. apply Htr in E. congruence. }
  destruct (api (extract_url d)) as [data|];
    [destruct (get_prop data "transactions") as [txs|]|];
    apply inv_insert; auto; apply js_or_truthy; reflexivity.
Qed.

Lemma reachable_inv s : reachable s -> inv s.
Proof. induction 1; [apply inv_initial | by apply inv_fetch]. Qed.

End SheetsViewProofs.

Module SheetsAsyncProofs.
Import SheetsView SheetsPage SheetsAsync.














End SheetsAsyncProofs.

(** ** C10 *)




Module DocumentUploadProofs.
Import DocumentUpload.

Lemma set_status_files f st l : map uf_file (set_status f st l) = map uf_file l.
Proof.
  induction l as [|u l IH]; simpl; [reflexivity|].
  destruct (Nat.eqb _ _); simpl; f_equal; exact IH.
Qed.

Lemma upload_form_files cid cat u :
  form_files (upload_form cid cat u) = [uf_file u].
Proof.
  unfold upload_form, form_files. rewrite flat_map_app. simpl.
  destruct (uf_extractedText u) as [t|]; [destruct (str_falsy t)|]; reflexivity.
Qed.

(** The loop keeps the files (only statuses change) and the alerts, and
    appends one upload request per processed entry. *)
Lemma upload_loop_spec ok cid cat processed s :
  let s' := upload_loop ok cid cat processed s in
  map uf_file (files s') = map uf_file (files s) /\
  alerts s' = alerts s /\
  posts s' = app (posts s)
               (map (fun u => ("/documents/upload", upload_form cid cat u)) processed).
Proof.
  revert s. induction processed as [|u rest IH]; intros s; simpl.
  - rewrite app_nil_r. auto.
  - destruct (IH (mkState (set_status (uf_file u) (if ok (upload_form cid cat u)
                 then Verified else Rejected) (files s)) (alerts s)
                 (app (posts s) [("/documents/upload", upload_form cid cat u)])))
      as (H1 & H2 & H3).
    simpl in *. rewrite H1, H2, H3, set_status_files, <- app_assoc. auto.
Qed.

End DocumentUploadProofs.

(** ** C9 *)

(** C9. Upload precondition guard: when [selectedCategory] or
    [selectedClientId] is empty, [processFiles] shows one alert and
    changes neither the uploaded-file list nor the sent requests; when both
    are non-empty, the new files are appended to the list, in order, and
    one [/documents/upload] request is sent per file, each carrying exactly
    that file. *)
Theorem processFiles_precondition_guard :
  forall (ok : DocumentUpload.post_ok) (cat cid : string)
         (newFiles : list DocumentUpload.file) (ext : option string)
         (s : DocumentUpload.state),
    let s' := DocumentUpload.processFiles ok cat cid newFiles ext s in
    ((cat = "" \/ cid = "") ->
       DocumentUpload.files s' = DocumentUpload.files s /\
       DocumentUpload.posts s' = DocumentUpload.posts s /\
       length (DocumentUpload.alerts s') = S (length (DocumentUpload.alerts s))) /\
    (cat <> "" -> cid <> "" ->
       map DocumentUpload.uf_file (DocumentUpload.files s')
         = app (map DocumentUpload.uf_file (DocumentUpload.files s)) newFiles /\
       DocumentUpload.alerts s' = DocumentUpload.alerts s /\
       exists sent,
         DocumentUpload.posts s' = app (DocumentUpload.posts s) sent /\
         Forall (fun p => fst p = "/documents/upload") sent /\
         map (fun p => DocumentUpload.form_files (snd p)) sent
           = map (fun f => [f]) newFiles).
Proof.
  intros ok cat cid newFiles ext s s'. subst s'.
  unfold DocumentUpload.processFiles, DocumentUpload.str_falsy. split.
  - intros [->| ->].
    + simpl. rewrite length_app. simpl. repeat split; lia.
    + destruct (String.eqb cat "");
        simpl; rewrite length_app; simpl; repeat split; lia.
  - intros Hcat Hcid.
    apply String.eqb_neq in Hcat, Hcid. rewrite Hcat, Hcid.
    match goal with
    | |- context [DocumentUpload.upload_loop ok cid cat ?p ?s1] =>
        destruct (DocumentUploadProofs.upload_loop_spec ok cid cat p s1)
          as (H1 & H2 & H3)
    end.
    rewrite H1, H2, H3. simpl. rewrite map_app, map_map. simpl.
    rewrite map_id. split; [reflexivity|]. split; [reflexivity|].
    eexists. split; [reflexivity|]. split.
    + apply Forall_forall. intros p Hp. apply list_elem_of_In, in_map_iff in Hp.
      destruct Hp as (u & <- & _). reflexivity.
    + rewrite !map_map. apply map_ext. intros f.
      exact (DocumentUploadProofs.upload_form_files cid cat _).
Qed.

(** ** C8 *)

(** C8. Invite-acceptance role gate: for an authenticated user whose role
    is not ['ca'] (or who has no role), [handleAccept] only sets the error
    message: no request of any kind is issued, so no assignment changes.
    For an authenticated CA whom the fetched client already names as its
    [assigned_ca_id], [handleAccept] fetches the client and navigates to
    the client's documents without posting [/clients/accept-invite]. *)
Theorem handleAccept_role_gate :
  forall (get post : string -> AcceptInvite.response)
         (token : string) (inv : AcceptInvite.invite),
    (forall u : option AcceptInvite.user,
       AcceptInvite.opt_role u <> Some "ca" ->
       AcceptInvite.handleAccept get post true u token inv
       = [AcceptInvite.SetError
            (JStr "Only Chartered Accountants can accept client invitations.")]) /\
    (forall (u : AcceptInvite.user) (client : jsval),
       AcceptInvite.u_role u = Some "ca" ->
       get ("/clients/" +:+ AcceptInvite.resource_id inv) = AcceptInvite.Ok client ->
       get_prop client "assigned_ca_id" = Some (JStr (AcceptInvite.u_id u)) ->
       let effs := AcceptInvite.handleAccept get post true (Some u) token inv in
       effs = [AcceptInvite.SetAccepting true;
               AcceptInvite.ApiGet ("/clients/" +:+ AcceptInvite.resource_id inv);
               AcceptInvite.Navigate ("/share/documents/" +:+ AcceptInvite.resource_id inv);
               AcceptInvite.SetAccepting false] /\
       existsb AcceptInvite.is_post effs = false).
Proof.
  intros get post token inv. split.
  - intros u Hrole. unfold AcceptInvite.handleAccept. simpl.
    destruct (AcceptInvite.opt_role u) as [r|] eqn:Hr; simpl; [|reflexivity].
    destruct (String.eqb_spec r "ca") as [->|Hne]; [congruence|reflexivity].
  - intros u client Hrole Hget Hca effs. subst effs.
    unfold AcceptInvite.handleAccept, AcceptInvite.accept_body. simpl.
    rewrite Hrole. simpl. rewrite Hget, Hca. simpl.
    rewrite String.eqb_refl. split; reflexivity.
Qed.

Module PipelineProofs.
Import Pipeline.

Lemma same_key_true sid k t :
  same_key sid k t = true -> sheet_id t = sid /\ dedup_key t = k.
Proof.
  unfold same_key. intros H. apply andb_true_iff in H as [H1 H2].
  apply Nat.eqb_eq in H1. apply String.eqb_eq in H2. auto.
Qed.

Lemma filter_none {A} (f : A -> bool) l :
  List.find f l = None -> List.filter f l = [].
Proof.
  intros H. pose proof (List.find_none f l H) as Hn. clear H.
  induction l as [|x l IH]; simpl; [reflexivity|].
  rewrite (Hn x (or_introl eq_refl)). apply IH. intros y Hy. apply Hn. now right.
Qed.

Lemma find_app_none {A} (f : A -> bool) l x :
  List.find f l = None -> f x = true -> List.find f (app l [x]) = Some x.
Proof.
  intros Hn Hx. induction l as [|y l IH]; simpl in *.
  - now rewrite Hx.
  - destruct (f y); [discriminate|]. now apply IH.
Qed.

(** The shape of a successful [ingest]: either an existing transaction
    with the row's key is returned and the store is unchanged, or a new
    transaction with that key is appended. *)
Lemma ingest_cases N sid r st i st' :
  ingest N sid r st = inr (i, st') ->
  exists k,
    (exists t, List.find (same_key sid k) (txns st) = Some t /\
               i = tx_id t /\ st' = st) \/
    (exists t, List.find (same_key sid k) (txns st) = None /\
               sheet_id t = sid /\ dedup_key t = k /\ i = tx_id t /\
               st' = mkStore (app (txns st) [t]) (S (next_id st))).
Proof.
  unfold ingest.
  destruct (parse_date N (date_text r)) as [d|]; [|discriminate].
  destruct (parse_amount N (amount_text r)) as [a|]; [|discriminate].
  set (k := stable_hash N _). intros H. exists k.
  destruct (List.find (same_key sid k) (txns st)) as [t|] eqn:Hf.
  - injection H as <- <-. left. eauto.
  - injection H as <- <-. right. eexists. repeat split; eauto.
Qed.

Lemma ingest_keys_unique N sid r st i st' :
  keys_unique st -> ingest N sid r st = inr (i, st') -> keys_unique st'.
Proof.
  intros Hu H. apply ingest_cases in H as (k & [(t & _ & _ & ->)|
    (t & Hf & Hs & Hk & _ & ->)]); [exact Hu|].
  intros sid' k'. simpl. rewrite List.filter_app. simpl.
  destruct (same_key sid' k' t) eqn:E.
  - apply same_key_true in E as [<- <-]. rewrite Hs, Hk.
    rewrite filter_none by exact Hf. simpl. lia.
  - rewrite app_nil_r. apply Hu.
Qed.

Lemma ingested_keys_unique N st : ingested N st -> keys_unique st.
Proof.
  induction 1.
  - intros sid k. simpl. lia.
  - eapply ingest_keys_unique; eauto.
Qed.

End PipelineProofs.

(** ** C1 *)

(** C1. Ingestion is idempotent: in any store built by ingestion, if
    ingesting a raw row returns id [i], ingesting the same row again is a
    no-op returning [i], and the store holds exactly one transaction with
    that row's sheet and dedup key, the one with id [i]. *)
Theorem ingest_idempotent :
  forall (N : Pipeline.normalizer) (sid : nat) (r : Pipeline.RawRow)
         (st st' : Pipeline.store) (i : nat),
    Pipeline.ingested N st ->
    Pipeline.ingest N sid r st = inr (i, st') ->
    Pipeline.ingest N sid r st' = inr (i, st') /\
    exists t, Pipeline.tx_id t = i /\
      List.filter (Pipeline.same_key sid (Pipeline.dedup_key t)) (Pipeline.txns st')
      = [t].
Proof.
  intros N sid r st st' i Hreach H.
  pose proof (PipelineProofs.ingested_keys_unique N st Hreach) as Hu.
  unfold Pipeline.ingest in *.
  destruct (Pipeline.parse_date N (Pipeline.date_text r)) as [d|]; [|discriminate].
  destruct (Pipeline.parse_amount N (Pipeline.amount_text r)) as [a|]; [|discriminate].
  set (k := Pipeline.stable_hash N _) in *.
  destruct (List.find (Pipeline.same_key sid k) (Pipeline.txns st)) as [t|] eqn:Hf.
  - injection H as <- <-. rewrite Hf. split; [reflexivity|].
    exists t. split; [reflexivity|].
    apply List.find_some in Hf as [Hin Hkey].
    pose proof Hkey as Hkey'. apply PipelineProofs.same_key_true in Hkey' as [_ ->].
    specialize (Hu sid k).
    assert (Hin' : In t (List.filter (Pipeline.same_key sid k) (Pipeline.txns st)))
      by (apply List.filter_In; auto).
    destruct (List.filter (Pipeline.same_key sid k) (Pipeline.txns st))
      as [|x [|y l]] eqn:E; simpl in *.
    + contradiction.
    + destruct Hin' as [->|[]]. reflexivity.
    + lia.
  - injection H as <- <-. simpl.
    rewrite (PipelineProofs.find_app_none _ _ _ Hf).
    2:{ unfold Pipeline.same_key. simpl. rewrite Nat.eqb_refl, String.eqb_refl. reflexivity. }
    split; [reflexivity|].
    match goal with
    | |- context [app (Pipeline.txns st) [?T]] => exists T
    end.
    split; [reflexivity|]. simpl.
    rewrite List.filter_app, (PipelineProofs.filter_none _ _ Hf). simpl.
    unfold Pipeline.same_key at 1. simpl. rewrite Nat.eqb_refl, String.eqb_refl.
    reflexivity.
Qed.

Module ScanProofs.
Import Pipeline.

Ltac no_cash_flags :=
  repeat match goal with
         | |- context [if ?b then _ else _] => destruct b
         | |- context [match ?x with _ => _ end] => destruct x
         end; reflexivity.

Lemma cash_flags_app l1 l2 : cash_flags (app l1 l2) = app (cash_flags l1) (cash_flags l2).
Proof. apply List.filter_app. Qed.

Lemma duplicate_no_cash D t nbh : cash_flags (duplicate_detector D t nbh) = [].
Proof. unfold duplicate_detector. no_cash_flags. Qed.

Lemma vendor_no_cash D t : cash_flags (suspicious_vendor_detector D t) = [].
Proof. unfold suspicious_vendor_detector. rewrite cash_flags_app. no_cash_flags. Qed.

Lemma gst_no_cash D t : cash_flags (gst_mismatch_detector D t) = [].
Proof. unfold gst_mismatch_detector. no_cash_flags. Qed.

Lemma pattern_no_cash D t nbh : cash_flags (pattern_detector D t nbh) = [].
Proof. unfold pattern_detector. no_cash_flags. Qed.

(** Only the cash-limit checker raises cash-limit flags. *)
Lemma scan_cash_flags D t nbh :
  cash_flags (scan D t nbh) = cash_limit_checker D t.
Proof.
  unfold scan. rewrite !cash_flags_app, duplicate_no_cash, vendor_no_cash,
    gst_no_cash, pattern_no_cash. simpl. rewrite app_nil_r.
  unfold cash_limit_checker.
  destruct (mode_is_cash _ && _); reflexivity.
Qed.

End ScanProofs.

(** ** C3 *)

(** C3. Cash-limit threshold correctness: for a cash-mode transaction,
    the scan yields exactly one cash-limit red flag, of severity [high],
    when the amount exceeds the configured limit, and none when the amount
    is at or below it. *)
Theorem scan_cash_limit_threshold :
  forall (D : Pipeline.detector_config) (t : Pipeline.Transaction)
         (neighborhood : list Pipeline.Transaction),
    Pipeline.mode_is_cash (Pipeline.payment_mode t) = true ->
    ((Pipeline.cash_limit D < Pipeline.amount t)%Z ->
       exists msg,
         Pipeline.cash_flags (Pipeline.scan D t neighborhood)
         = [Pipeline.mkRedFlag (Pipeline.tx_id t) Pipeline.CashLimitFlag
                               Pipeline.High msg false]) /\
    ((Pipeline.amount t <= Pipeline.cash_limit D)%Z ->
       Pipeline.cash_flags (Pipeline.scan D t neighborhood) = []).
Proof.
  intros D t nbh Hcash. rewrite ScanProofs.scan_cash_flags.
  unfold Pipeline.cash_limit_checker. rewrite Hcash. simpl. split.
  - intros Hlt. apply Z.ltb_lt in Hlt. rewrite Hlt. eexists. reflexivity.
  - intros Hle. destruct (Z.ltb_spec (Pipeline.cash_limit D) (Pipeline.amount t));
      [lia|reflexivity].
Qed.

(** ** C6 *)

(** C6. Classification cascade order and thresholds: a rule firing with
    declared confidence at least [T1] is returned at once with tier
    [rule], and only the rule tier is consulted; the similarity tier is
    consulted exactly when no rule reaches [T1], and a top match with
    similarity at least [T2] is then returned with tier [similarity] and
    confidence equal to the similarity; the model tier is consulted
    exactly when both tiers are below their thresholds. *)
Theorem classify_cascade :
  forall (th : Pipeline.thresholds) (B : Pipeline.classifier_backends)
         (client_id : nat) (t : Pipeline.Transaction),
    let res := Pipeline.classify th B client_id t in
    (forall c conf,
       Pipeline.rule_match B t = Some (c, conf) -> (Pipeline.T1 th <= conf)%Q ->
       res = (Pipeline.mkClassification c conf Pipeline.RuleTier "rule match" false,
              [Pipeline.RuleTier])) /\
    (forall c sim rest,
       Pipeline.rule_tier th B t = None ->
       Pipeline.nearest B client_id (Pipeline.description t) = (c, sim) :: rest ->
       (Pipeline.T2 th <= sim)%Q ->
       res = (Pipeline.mkClassification c sim Pipeline.SimilarityTier
                "similarity match" false,
              [Pipeline.RuleTier; Pipeline.SimilarityTier])) /\
    (In Pipeline.SimilarityTier (snd res) <-> Pipeline.rule_tier th B t = None) /\
    (In Pipeline.ModelTier (snd res) <->
       Pipeline.rule_tier th B t = None /\
       Pipeline.similarity_accepts th B client_id t = false) /\
    (Pipeline.cr_tier (fst res) = Pipeline.ModelTier <->
       In Pipeline.ModelTier (snd res)).
Proof.
  intros th B cid t res. subst res.
  unfold Pipeline.classify, Pipeline.similarity_then_model,
    Pipeline.similarity_accepts, Pipeline.rule_tier.
  split; [|split; [|split; [|split]]].
  - intros c conf Hr Hle. rewrite Hr. apply Qle_bool_iff in Hle. now rewrite Hle.
  - intros c sim rest Hnone Hn Hle. rewrite Hnone, Hn.
    apply Qle_bool_iff in Hle. now rewrite Hle.
  - destruct (Pipeline.rule_match B t) as [[c conf]|];
      [destruct (Qle_bool (Pipeline.T1 th) conf)|];
      destruct (Pipeline.nearest B cid (Pipeline.description t)) as [|[c' sim] rest];
      try destruct (Qle_bool (Pipeline.T2 th) sim);
      simpl; intuition (discriminate || auto).
  - destruct (Pipeline.rule_match B t) as [[c conf]|];
      [destruct (Qle_bool (Pipeline.T1 th) conf)|];
      destruct (Pipeline.nearest B cid (Pipeline.description t)) as [|[c' sim] rest];
      try destruct (Qle_bool (Pipeline.T2 th) sim);
      simpl; intuition (discriminate || congruence).
  - unfold Pipeline.model_tier.
    destruct (Pipeline.rule_match B t) as [[c conf]|];
      [destruct (Qle_bool (Pipeline.T1 th) conf)|];
      destruct (Pipeline.nearest B cid (Pipeline.description t)) as [|[c' sim] rest];
      try destruct (Qle_bool (Pipeline.T2 th) sim);
      try destruct (Pipeline.classify_with_context _ _ _) as [[[? ?] ?]|];
      simpl; intuition (discriminate || congruence).
Qed.

Module ComplianceProofs.
Import Pipeline.

Lemma eval_rule_throws t c r :
  rule_throws t c r = true ->
  exists e, eval_rule t c r = [rule_error_finding t r e].
Proof.
  unfold rule_throws, eval_rule.
  destruct (applicability_predicate r t c) as [e|[|]]; [eauto| |discriminate].
  destruct (evaluation_function r t c) as [e|[b reason]]; [eauto|discriminate].
Qed.

Lemma rule_error_finding_fields t r e :
  cf_rule_id (rule_error_finding t r e) = rule_id r /\
  cf_applicable (rule_error_finding t r e) = Unknown.
Proof. destruct e. split; reflexivity. Qed.

End ComplianceProofs.

(** ** C7 *)

(** C7. No compliance rule is silently dropped: for every rule of the
    table whose applicability predicate or evaluation throws, [evaluate]
    records a [ComplianceRuleError] finding for that rule with
    applicability [unknown], and the transaction is marked
    [needs_manual_review]; and the model-assisted tier, when the service
    is unavailable or answers with confidence below [T3], still returns a
    result (tier [model]) tagged [needs_review]. *)
Theorem no_rule_silently_dropped :
  forall (rules : list Pipeline.ComplianceRule) (t : Pipeline.Transaction)
         (c : Pipeline.ClassificationResult),
    (forall r, In r rules -> Pipeline.rule_throws t c r = true ->
       (exists f, In f (Pipeline.findings (Pipeline.evaluate rules t c)) /\
                  Pipeline.cf_rule_id f = Pipeline.rule_id r /\
                  Pipeline.cf_applicable f = Pipeline.Unknown) /\
       Pipeline.needs_manual_review (Pipeline.evaluate rules t c) = true) /\
    (forall (th : Pipeline.thresholds) (B : Pipeline.classifier_backends)
            (examples : list (string * Q)),
       (Pipeline.classify_with_context B t examples = None \/
        exists cat conf why,
          Pipeline.classify_with_context B t examples = Some (cat, conf, why) /\
          (conf < Pipeline.T3 th)%Q) ->
       Pipeline.cr_tier (Pipeline.model_tier th B t examples) = Pipeline.ModelTier /\
       Pipeline.cr_needs_review (Pipeline.model_tier th B t examples) = true).
Proof.
  intros rules t c. split.
  - intros r Hin Hthrow.
    destruct (ComplianceProofs.eval_rule_throws t c r Hthrow) as [e He].
    destruct (ComplianceProofs.rule_error_finding_fields t r e) as [Hid Hu].
    assert (Hf : In (Pipeline.rule_error_finding t r e)
                    (Pipeline.findings (Pipeline.evaluate rules t c))).
    { simpl. apply in_flat_map. exists r. rewrite He. split; [exact Hin|now left]. }
    split; [eauto|].
    simpl. apply existsb_exists. eexists. split; [exact Hf|].
    unfold Pipeline.is_unknown. now rewrite Hu.
  - intros th B ex [Hnone|(cat & conf & why & Hsome & Hlt)];
      unfold Pipeline.model_tier.
    + rewrite Hnone. split; reflexivity.
    + rewrite Hsome. simpl. split; [reflexivity|].
      destruct (Qle_bool (Pipeline.T3 th) conf) eqn:E; [|reflexivity].
      apply Qle_bool_iff in E. apply Qlt_not_le in Hlt. contradiction.
Qed.

Module LedgerProofs.
Import Pipeline Ledger.



























End LedgerProofs.

(** ** C2 *)


(** ** C5 *)


(* ================================================================== *)
(** * Witnesses: each theorem applied at a concrete input *)


Lemma processFiles_precondition_guard_witness :
  map DocumentUpload.uf_file
    (DocumentUpload.files
       (DocumentUpload.processFiles (fun _ => true) "Bank Statement" "client-1"
          [DocumentUpload.mkFile 1 "statement.pdf"] None
          (DocumentUpload.mkState [] [] [])))
  = [DocumentUpload.mkFile 1 "statement.pdf"] /\
  DocumentUpload.files
    (DocumentUpload.processFiles (fun _ => true) "" "client-1"
       [DocumentUpload.mkFile 1 "statement.pdf"] None
       (DocumentUpload.mkState [] [] [])) = [].
Proof.
  split.
  - apply (proj2 (processFiles_precondition_guard (fun _ => true) "Bank Statement"
      "client-1" [DocumentUpload.mkFile 1 "statement.pdf"] None
      (DocumentUpload.mkState [] [] []))); discriminate.
  - apply (proj1 (processFiles_precondition_guard (fun _ => true) ""
      "client-1" [DocumentUpload.mkFile 1 "statement.pdf"] None
      (DocumentUpload.mkState [] [] []))). now left.
Defined.

Lemma handleAccept_role_gate_witness :
  AcceptInvite.handleAccept (fun _ => AcceptInvite.Err JUndef)
    (fun _ => AcceptInvite.Err JUndef) true
    (Some (AcceptInvite.mkUser "u1" (Some "client"))) "tok"
    (AcceptInvite.mkInvite "c1")
  = [AcceptInvite.SetError
       (JStr "Only Chartered Accountants can accept client invitations.")] /\
  existsb AcceptInvite.is_post
    (AcceptInvite.handleAccept
       (fun _ => AcceptInvite.Ok (JObj [("assigned_ca_id", JStr "u1")]))
       (fun _ => AcceptInvite.Err JUndef) true
       (Some (AcceptInvite.mkUser "u1" (Some "ca"))) "tok"
       (AcceptInvite.mkInvite "c1")) = false.
Proof.
  split.
  - apply (proj1 (handleAccept_role_gate (fun _ => AcceptInvite.Err JUndef)
      (fun _ => AcceptInvite.Err JUndef) "tok" (AcceptInvite.mkInvite "c1"))).
    discriminate.
  - apply (proj2 (handleAccept_role_gate
      (fun _ => AcceptInvite.Ok (JObj [("assigned_ca_id", JStr "u1")]))
      (fun _ => AcceptInvite.Err JUndef) "tok" (AcceptInvite.mkInvite "c1"))
      (AcceptInvite.mkUser "u1" (Some "ca")) (JObj [("assigned_ca_id", JStr "u1")]));
      reflexivity.
Defined.

Lemma ingest_idempotent_witness :
  Pipeline.ingest Examples.normalizer 0 Examples.rent_row Pipeline.empty_store
  = inr (0, Examples.rent_store) /\
  Pipeline.ingest Examples.normalizer 0 Examples.rent_row Examples.rent_store
  = inr (0, Examples.rent_store).
Proof.
  assert (H : Pipeline.ingest Examples.normalizer 0 Examples.rent_row
                Pipeline.empty_store = inr (0, Examples.rent_store))
    by reflexivity.
  split; [exact H|].
  exact (proj1 (ingest_idempotent Examples.normalizer 0 Examples.rent_row _ _ 0
                  (Pipeline.ingested_empty _) H)).
Defined.

Lemma scan_cash_limit_threshold_witness :
  exists msg,
    Pipeline.cash_flags (Pipeline.scan Examples.detectors Examples.cash_txn [])
    = [Pipeline.mkRedFlag 1 Pipeline.CashLimitFlag Pipeline.High msg false].
Proof.
  apply (proj1 (scan_cash_limit_threshold Examples.detectors Examples.cash_txn []
                  eq_refl)).
  reflexivity.
Defined.

Lemma classify_cascade_witness :
  Pipeline.classify Pipeline.default_thresholds Examples.rent_rule_backends 0
    Examples.cash_txn
  = (Pipeline.mkClassification "Rent" (95 # 100) Pipeline.RuleTier "rule match" false,
     [Pipeline.RuleTier]).
Proof.
  apply (proj1 (classify_cascade Pipeline.default_thresholds
                  Examples.rent_rule_backends 0 Examples.cash_txn)
           "Rent" (95 # 100)).
  - reflexivity.
  - apply Qle_bool_iff. reflexivity.
Defined.

Lemma no_rule_silently_dropped_witness :
  Pipeline.needs_manual_review
    (Pipeline.evaluate [Examples.throwing_rule] Examples.cash_txn
       Examples.rent_classification) = true.
Proof.
  exact (proj2 (proj1 (no_rule_silently_dropped [Examples.throwing_rule]
                         Examples.cash_txn Examples.rent_classification)
                  Examples.throwing_rule (or_introl eq_refl) eq_refl)).
Defined.






(* ================================================================== *)
(** * Further properties of the pages *)

Module SheetsPageProofs.
Import SheetsView SheetsPage.



Lemma fetch_requests api d s :
  inv s ->
  requests (fetchDocumentTransactions api d s)
  = app (requests s)
        (if bool_decide (transactionsMap s !! d = None) then [extract_url d] else []).
Proof.
  intros (Htr & _). unfold fetchDocumentTransactions, map_get.
  destruct (transactionsMap s !! d) as [v|] eqn:E.
  - rewrite (Htr d v E). simpl. by rewrite app_nil_r.
  - simpl. destruct (api _) as [data|]; [destruct (get_prop _ _)|]; reflexivity.
Qed.

Lemma toggleDocument_fst api d doc E s :
  fst (toggleDocument api d doc E s)
  = if decide (d ∈ E) then E ∖ {[d]} else {[d]} ∪ E.
Proof. unfold toggleDocument. by destruct (decide (d ∈ E)). Qed.

Lemma union_diff_singleton (k : string) (E : gset string) :
  k ∈ E -> {[k]} ∪ E ∖ {[k]} = E.
Proof.
  intros Hk. apply leibniz_equiv. intros x.
  rewrite elem_of_union, elem_of_difference, elem_of_singleton.
  destruct (decide (x = k)); subst; tauto.
Qed.

Lemma diff_union_singleton (k : string) (E : gset string) :
  k ∉ E -> ({[k]} ∪ E) ∖ {[k]} = E.
Proof.
  intros Hk. apply leibniz_equiv. intros x.
  rewrite elem_of_difference, elem_of_union, elem_of_singleton.
  destruct (decide (x = k)); subst; tauto.
Qed.



(** Toggling a key flips its membership, leaves every other key alone,
    and toggling it again gives back the set. *)
Theorem toggle_flip_involutive (E : gset string) (k : string) :
  toggle (toggle E k) k = E /\
  (k ∈ toggle E k <-> k ∉ E) /\
  (forall j, j <> k -> (j ∈ toggle E k <-> j ∈ E)).
Proof.
  unfold toggle. destruct (decide (k ∈ E)) as [Hk|Hk].
  - destruct (decide (k ∈ E ∖ {[k]})) as [Hk'|Hk']; [set_solver|].
    split; [by apply union_diff_singleton|]. split; set_solver.
  - destruct (decide (k ∈ {[k]} ∪ E)) as [Hk'|Hk']; [|set_solver].
    split; [by apply diff_union_singleton|]. split; set_solver.
Qed.

(** [toggleDocument]: collapsing an expanded document changes nothing but
    the expanded set; expanding one requests its transactions exactly when
    [shouldShowTransactions] holds and they were never loaded. *)
Theorem toggleDocument_requests api d doc E s :
  reachable s ->
  (d ∈ E -> toggleDocument api d doc E s = (E ∖ {[d]}, s)) /\
  (d ∉ E ->
     fst (toggleDocument api d doc E s) = {[d]} ∪ E /\
     requests (snd (toggleDocument api d doc E s))
     = app (requests s)
           (if shouldShowTransactions doc &&
               bool_decide (transactionsMap s !! d = None)
            then [extract_url d] else [])).
Proof.
  intros Hr. pose proof (SheetsViewProofs.reachable_inv s Hr) as Hinv.
  unfold toggleDocument. split.
  - intros Hd. by destruct (decide (d ∈ E)).
  - intros Hd. destruct (decide (d ∈ E)) as [|_]; [contradiction|].
    split; [reflexivity|]. simpl. fold (shouldShowTransactions doc).
    destruct (shouldShowTransactions doc); simpl.
    + by apply fetch_requests.
    + by rewrite app_nil_r.
Qed.


Lemma lookup_or_upd {V} (d : V) k k' f (l : list (string * V)) :
  lookup_or d k' (assoc_upd k f d l)
  = if String.eqb k' k then f (lookup_or d k l) else lookup_or d k' l.
Proof.
  induction l as [|[k0 v] l IH]; simpl.
  - by destruct (String.eqb k' k).
  - destruct (String.eqb_spec k k0) as [->|Hk]; simpl.
    + by destruct (String.eqb k' k0).
    + destruct (String.eqb_spec k' k0) as [->|Hk'].
      * destruct (String.eqb_spec k0 k); [congruence|reflexivity].
      * exact IH.
Qed.

Lemma keys_upd {V} (d : V) k f (l : list (string * V)) :
  map fst (assoc_upd k f d l)
  = if bool_decide (k ∈ map fst l) then map fst l else app (map fst l) [k].
Proof.
  induction l as [|[k0 v] l IH]; cbn [assoc_upd map fst].
  - case_bool_decide as H; [by apply not_elem_of_nil in H|reflexivity].
  - destruct (String.eqb_spec k k0) as [->|Hk]; cbn [map fst].
    + clear IH. case_bool_decide as H; [reflexivity|].
      exfalso. apply H, elem_of_cons. by left.
    + rewrite IH. clear IH. case_bool_decide as H1; case_bool_decide as H2; try reflexivity.
      * exfalso. apply H2, elem_of_cons. by right.
      * apply elem_of_cons in H2 as [H2|H2]; contradiction.
Qed.

Lemma organize_snoc date_parts docs x :
  organize date_parts (app docs [x]) = push_doc date_parts (organize date_parts docs) x.
Proof. unfold organize. by rewrite fold_left_app. Qed.

(** [fetchData] groups a client's documents by year and month: the bucket
    of year [y] and month [m] holds exactly the documents dated in that
    month, in the order the server listed them. *)
Theorem organize_buckets date_parts docs y m :
  lookup_or [] m (lookup_or [] y (organize date_parts docs))
  = List.filter (fun d => bool_decide (date_parts (created_at d) = (y, m))) docs.
Proof.
  induction docs as [|x docs IH] using rev_ind; [reflexivity|].
  rewrite organize_snoc, List.filter_app, <- IH. unfold push_doc.
  destruct (date_parts (created_at x)) as [yy mm] eqn:Ex. simpl. rewrite Ex.
  rewrite lookup_or_upd.
  destruct (String.eqb_spec y yy) as [->|Hy].
  - rewrite lookup_or_upd. destruct (String.eqb_spec m mm) as [->|Hm].
    + by rewrite bool_decide_true.
    + rewrite bool_decide_false by congruence. by rewrite app_nil_r.
  - rewrite bool_decide_false by congruence. by rewrite app_nil_r.
Qed.

Lemma organize_keys date_parts docs :
  NoDup (map fst (organize date_parts docs)) /\
  forall y, y ∈ map fst (organize date_parts docs) <->
            y ∈ map (fun d => fst (date_parts (created_at d))) docs.
Proof.
  induction docs as [|x docs [Hnd Hin]] using rev_ind.
  - split; [constructor|]. intros y. simpl. split; intros H; inversion H.
  - rewrite organize_snoc, map_app. unfold push_doc.
    destruct (date_parts (created_at x)) as [yy mm] eqn:Ex. rewrite keys_upd.
    simpl. rewrite Ex. simpl.
    case_bool_decide as Hyy.
    + split; [exact Hnd|]. intros y. rewrite elem_of_app, Hin, list_elem_of_singleton.
      split; [tauto|]. intros [H| ->]; [exact H|]. by apply Hin.
    + split.
      * apply NoDup_app. split; [exact Hnd|]. split; [|apply NoDup_singleton].
        intros z Hz Hz'. apply list_elem_of_singleton in Hz'. subst. contradiction.
      * intros y. rewrite !elem_of_app, Hin. reflexivity.
Qed.

Lemma totalDocs_length org : totalDocs (organized_js org) = length org.
Proof.
  induction org as [|ym org IH]; [reflexivity|].
  unfold totalDocs, organized_js, object_values in *. simpl in *. by rewrite IH.
Qed.

(** The "[totalDocs] documents" count of a client's header is the number
    of distinct years among the client's documents, not the number of
    documents: [flat(2)] does not spread the month objects. *)
Theorem totalDocs_counts_years date_parts docs :
  totalDocs (organized_js (organize date_parts docs))
  = size (list_to_set (map (fun d => fst (date_parts (created_at d))) docs) : gset string).
Proof.
  rewrite totalDocs_length. destruct (organize_keys date_parts docs) as [Hnd Hin].
  rewrite <- (length_map fst), <- (size_list_to_set (C:=gset string)) by exact Hnd.
  f_equal. unfold_leibniz. intros y. rewrite !elem_of_list_to_set. apply Hin.
Qed.

Lemma month_total_upd m x (ms : list (string * list document)) :
  length (concat (map snd (assoc_upd m (fun ds => app ds [x]) [] ms)))
  = S (length (concat (map snd ms))).
Proof.
  induction ms as [|[m0 ds] ms IH]; simpl; [reflexivity|].
  destruct (String.eqb m m0); simpl; rewrite !length_app; simpl.
  - lia.
  - rewrite IH. lia.
Qed.

Lemma year_total date_parts docs y :
  length (concat (map snd (lookup_or [] y (organize date_parts docs))))
  = length (List.filter (fun d => bool_decide (fst (date_parts (created_at d)) = y)) docs).
Proof.
  induction docs as [|x docs IH] using rev_ind; [reflexivity|].
  rewrite organize_snoc, List.filter_app, length_app, <- IH. unfold push_doc.
  destruct (date_parts (created_at x)) as [yy mm] eqn:Ex. simpl. rewrite Ex.
  rewrite lookup_or_upd. simpl.
  destruct (String.eqb_spec y yy) as [->|Hy].
  - rewrite month_total_upd, bool_decide_true by reflexivity. simpl. lia.
  - rewrite bool_decide_false by (simpl; congruence). simpl. lia.
Qed.

Lemma assoc_get_years (org : organized) y
    (g : list (string * list document) -> jsval) :
  y ∈ map fst org ->
  assoc_get y (map (fun ym => (fst ym, g (snd ym))) org) = g (lookup_or [] y org).
Proof.
  induction org as [|[k v] org IH]; simpl; intros Hy.
  - by apply not_elem_of_nil in Hy.
  - destruct (String.eqb_spec y k) as [->|Hk]; [reflexivity|].
    apply IH. apply elem_of_cons in Hy as [Hy|Hy]; [contradiction|exact Hy].
Qed.

Lemma flat1_months (ms : list (string * list document)) :
  length (js_flat 1 (map snd (map (fun md => (fst md, JArr (map document_js (snd md)))) ms)))
  = length (concat (map snd ms)).
Proof.
  induction ms as [|[m ds] ms IH]; [reflexivity|].
  simpl in *. rewrite !length_app, length_map. lia.
Qed.

(** The "[n] documents" count in the header of a year is the number of
    the client's documents dated in that year: there [flat()] spreads the
    month arrays. *)
Theorem yearDocs_counts date_parts docs y :
  y ∈ map (fun d => fst (date_parts (created_at d))) docs ->
  yearDocs (organized_js (organize date_parts docs)) y
  = length (List.filter (fun d => bool_decide (fst (date_parts (created_at d)) = y)) docs).
Proof.
  intros Hy. rewrite <- year_total.
  destruct (organize_keys date_parts docs) as [_ Hin]. apply Hin in Hy.
  unfold yearDocs, js_index, organized_js.
  rewrite (assoc_get_years _ y
             (fun ms => JObj (map (fun md => (fst md, JArr (map document_js (snd md)))) ms)))
    by exact Hy.
  unfold object_values. apply flat1_months.
Qed.

End SheetsPageProofs.

Module UploadPageProofs.
Import DocumentUpload UploadPage.

Lemma set_status_absent f st l :
  file_ref f ∉ refs l -> set_status f st l = l.
Proof.
  induction l as [|u l IH]; intros Hn; [reflexivity|]. simpl in *.
  apply not_elem_of_cons in Hn as [Hu Hn].
  destruct (Nat.eqb_spec (file_ref (uf_file u)) (file_ref f)); [congruence|].
  f_equal. by apply IH.
Qed.

Lemma set_status_middle L u rest st :
  NoDup (refs (app L (u :: rest))) ->
  set_status (uf_file u) st (app L (u :: rest))
  = app L (mkUploaded (uf_file u) (uf_category u) st (uf_path u) (uf_extractedText u)
           :: rest).
Proof.
  unfold refs. rewrite map_app. simpl. intros Hnd.
  apply NoDup_app in Hnd as (HndL & Hdisj & Hnd').
  apply NoDup_cons in Hnd' as [Hu Hrest].
  unfold set_status. rewrite map_app. simpl. rewrite Nat.eqb_refl.
  fold (set_status (uf_file u) st L) (set_status (uf_file u) st rest).
  rewrite !set_status_absent; [reflexivity| |].
  - exact Hu.
  - intros Hin. apply (Hdisj _ Hin). apply elem_of_cons. by left.
Qed.

Lemma upload_loop_files ok cid cat P L a ps :
  NoDup (refs (app L P)) ->
  files (upload_loop ok cid cat P (mkState (app L P) a ps))
  = app L (map (uploaded_entry ok cid cat) P).
Proof.
  revert L a ps. induction P as [|u rest IH]; intros L a ps Hnd; simpl.
  - by rewrite !app_nil_r.
  - rewrite (set_status_middle L u rest) by exact Hnd.
    rewrite cons_middle, app_assoc, IH.
    + by rewrite <- app_assoc.
    + revert Hnd. unfold refs. rewrite !map_app. simpl. by rewrite <- app_assoc.
Qed.

(** After [processFiles] with a category and a client selected, the list
    keeps the earlier entries and ends with one entry per new file, in
    order, marked [verified] or [rejected] by the answer to its own upload
    request: none is left [analyzing].  The files are distinct objects. *)
Theorem processFiles_upload_status ok cat cid newFiles extractedText s :
  cat <> "" -> cid <> "" ->
  NoDup (map file_ref (app (map uf_file (files s)) newFiles)) ->
  files (processFiles ok cat cid newFiles extractedText s)
  = app (files s)
        (map (fun f => uploaded_entry ok cid cat (processed_entry cat extractedText f))
             newFiles).
Proof.
  intros Hcat Hcid Hnd. unfold processFiles, str_falsy.
  rewrite (proj2 (String.eqb_neq cat "") Hcat), (proj2 (String.eqb_neq cid "") Hcid).
  rewrite <- (map_map (processed_entry cat extractedText)).
  apply upload_loop_files. unfold refs. rewrite map_app, map_map.
  rewrite map_app, map_map in Hnd. exact Hnd.
Qed.

Lemma filter_index_before {A} index i (l : list A) :
  (index < i)%Z -> filter_index index i l = l.
Proof.
  revert i. induction l as [|x l IH]; intros i Hi; simpl; [reflexivity|].
  destruct (Z.eqb_spec i index); [lia|]. f_equal. apply IH. lia.
Qed.

Lemma filter_index_take_drop {A} (l : list A) i n :
  filter_index (i + Z.of_nat n) i l = app (take n l) (drop (S n) l).
Proof.
  revert i n. induction l as [|x l IH]; intros i n; simpl.
  - by destruct n.
  - destruct n as [|n].
    + rewrite Z.add_0_r, Z.eqb_refl. simpl. apply filter_index_before. lia.
    + destruct (Z.eqb_spec i (i + Z.of_nat (S n))); [lia|]. simpl. f_equal.
      replace (i + Z.of_nat (S n))%Z with ((i + 1) + Z.of_nat n)%Z by lia.
      apply IH.
Qed.

(** [removeFile(n)] drops exactly the [n]th entry (none when [n] is past
    the end) and keeps the order of the others; a negative index removes
    nothing. *)
Theorem removeFile_spec (n : nat) (index : Z) s :
  files (removeFile (Z.of_nat n) s) = app (take n (files s)) (drop (S n) (files s)) /\
  length (files (removeFile (Z.of_nat n) s))
  = (if Nat.ltb n (length (files s)) then Nat.pred (length (files s))
     else length (files s)) /\
  ((index < 0)%Z -> files (removeFile index s) = files s) /\
  alerts (removeFile index s) = alerts s /\ posts (removeFile index s) = posts s.
Proof.
  unfold removeFile. simpl.
  assert (H : filter_index (Z.of_nat n) 0 (files s)
              = app (take n (files s)) (drop (S n) (files s)))
    by exact (filter_index_take_drop (files s) 0 n).
  rewrite H. split; [reflexivity|]. split.
  - rewrite length_app, length_take, length_drop.
    destruct (Nat.ltb_spec n (length (files s))); lia.
  - split; [|split; reflexivity]. intros Hi. apply filter_index_before. lia.
Qed.

Ltac import_cases :=
  repeat split;
  repeat match goal with
  | |- ~ _ => intro
  | |- _ -> _ => intro
  | |- forall _, _ => intro
  | H : False |- _ => destruct H
  | H : _ \/ _ |- _ => destruct H
  | H : ex _ |- _ => destruct H
  | H : _ /\ _ |- _ => destruct H
  | H : ImportPost _ _ = ImportPost _ _ |- _ => inversion H; subst; clear H
  | H : ?a = ?b |- _ => discriminate H
  end;
  try (simpl; lia); try reflexivity; try congruence;
  try (left; reflexivity); try (right; left; reflexivity);
  try (right; right; left; reflexivity);
  try (right; do 3 eexists; split; [left; reflexivity|eassumption]).

Lemma import_body_facts post cid platform d :
  let effs := import_body post cid platform d in
  ~ In (SetImporting false) effs /\
  length (List.filter is_import_post effs) <= 1 /\
  (forall url body, In (ImportPost url body) effs ->
     url = (if String.eqb platform "zoho-books" then "/import/zoho-books"
            else if String.eqb platform "khatabook" then "/import/khatabook"
            else "/import/excel-csv")) /\
  (In CloseModal effs <->
     import_platform platform = false \/
     exists url body u, In (ImportPost url body) effs /\ post url = inr u).
Proof.
  unfold import_body, import_platform.
  destruct (String.eqb_spec platform "zoho-books") as [->|Hz]; simpl.
  - destruct (str_falsy (apiKey d) || str_falsy (organizationId d)); simpl.
    + import_cases.
    + destruct (post "/import/zoho-books") as [e|u] eqn:Hp; simpl; import_cases.
  - destruct (String.eqb platform "khatabook" || String.eqb platform "tally" ||
              String.eqb platform "google-sheets") eqn:Hf; simpl.
    + destruct (import_file d) as [f|]; simpl; [|import_cases].
      destruct (post (if String.eqb platform "khatabook" then "/import/khatabook"
                      else "/import/excel-csv")) as [e|u] eqn:Hp; simpl; import_cases.
    + import_cases.
Qed.

Lemma in_wrap e l :
  (forall b, e <> SetImporting b) ->
  In e (SetImporting true :: app l [SetImporting false]) <-> In e l.
Proof.
  intros He. simpl. rewrite in_app_iff. simpl.
  split; [intros [H|[H|[H|[]]]]; [by destruct (He true)|exact H|by destruct (He false)]|].
  intros H. right. by left.
Qed.

(** [handleIntegrationImport]: with no client selected it only alerts.
    Otherwise it sets [importing] first and clears it last on every path,
    sends at most one import request, to the platform's endpoint, and
    closes the modal exactly when the platform needs no request or its
    request succeeded. *)
Theorem handleIntegrationImport_effects post cid platform d :
  let effs := handleIntegrationImport post cid platform d in
  (cid = "" -> effs = [ImportAlert "Client profile not found"]) /\
  (cid <> "" ->
     head effs = Some (SetImporting true) /\
     last effs = Some (SetImporting false) /\
     length (List.filter is_import_post effs) <= 1 /\
     (forall url body, In (ImportPost url body) effs ->
        url = (if String.eqb platform "zoho-books" then "/import/zoho-books"
               else if String.eqb platform "khatabook" then "/import/khatabook"
               else "/import/excel-csv")) /\
     (In CloseModal effs <->
        import_platform platform = false \/
        exists url body u, In (ImportPost url body) effs /\ post url = inr u)).
Proof.
  unfold handleIntegrationImport, str_falsy. split.
  - intros ->. reflexivity.
  - intros Hcid. rewrite (proj2 (String.eqb_neq cid "") Hcid).
    destruct (import_body_facts post cid platform d) as (H0 & H1 & H2 & H3).
    split; [reflexivity|]. split; [by rewrite last_cons, last_app|].
    split; [simpl; rewrite List.filter_app; simpl; by rewrite app_nil_r|]. split.
    + intros url body Hin.
      apply (proj1 (in_wrap (ImportPost url body) _ ltac:(intros ? ?; discriminate))) in Hin. exact (H2 _ _ Hin).
    + rewrite (in_wrap CloseModal) by (intros ? ?; discriminate). rewrite H3.
      split; intros [H|(url & body & u & Hin & Hu)]; try (left; exact H);
        right; exists url, body, u; split; try exact Hu.
      * apply (proj2 (in_wrap (ImportPost url body) _ ltac:(intros ? ?; discriminate))). exact Hin.
      * exact (proj1 (in_wrap (ImportPost url body) _ ltac:(intros ? ?; discriminate)) Hin).
Qed.

End UploadPageProofs.

Module InvitePageProofs.
Import AcceptInvite InvitePage.

Ltac split_matches :=
  repeat match goal with
  | |- context [match ?x with _ => _ end] =>
      lazymatch x with
      | context [match _ with _ => _ end] => fail
      | _ => destruct x eqn:?
      end
  end.

Ltac effect_cases :=
  repeat split;
  repeat match goal with
  | |- ~ _ => intro
  | |- _ -> _ => intro
  | |- forall _, _ => intro
  | H : False |- _ => destruct H
  | H : _ \/ _ |- _ => destruct H
  | H : ex _ |- _ => destruct H
  | H : _ /\ _ |- _ => destruct H
  | H : ?a = ?b |- _ => discriminate H
  | H : ?a = ?b |- _ => injection H; clear H; intros; subst
  end;
  simpl in *; try congruence; try lia.

Ltac no_invite Hg :=
  let Hg' := fresh "Hget" in let Hs := fresh "Hrest" in
  intros (? & ? & ? & Hg' & Hs); try rewrite Hg in Hg';
  first [discriminate Hg' | injection Hg' as <-; intuition congruence].

Lemma verify_body_shape get t :
  let url := "/share/resolve/" +:+ t in
  (exists data valid rtype,
     get url = Ok data /\ truthy data = true /\
     get_prop data "valid" = Some valid /\ truthy valid = true /\
     get_prop data "resource_type" = Some rtype /\ js_eq_str rtype "client" = true /\
     verify_body get t = [VApiGet url; VSetInviteData data]) \/
  (~ (exists data valid rtype,
        get url = Ok data /\ truthy data = true /\
        get_prop data "valid" = Some valid /\ truthy valid = true /\
        get_prop data "resource_type" = Some rtype /\ js_eq_str rtype "client" = true) /\
   exists m rest, verify_body get t = VApiGet url :: VSetError m :: rest /\
                  Forall (fun e => e = VSetLoading false) rest).
Proof.
  unfold verify_body. cbv zeta.
  remember ("/share/resolve/" +:+ t) as url eqn:Hurl. clear Hurl.
  destruct (get url) as [data|det] eqn:Hg.
  2:{ right. split; [no_invite Hg|].
      do 2 eexists. split; [reflexivity|constructor]. }
  destruct (truthy data) eqn:Htr; simpl.
  2:{ right. split; [no_invite Hg|].
      do 2 eexists. split; [reflexivity|repeat constructor]. }
  destruct (get_prop data "valid") as [valid|] eqn:Hv;
  [|right; split; [no_invite Hg|];
    do 2 eexists; split; [reflexivity|constructor]].
  destruct (get_prop data "error") as [err|] eqn:He;
  [|right; split; [|do 2 eexists; split; [reflexivity|constructor]];
    destruct data; discriminate].
  destruct (get_prop data "resource_type") as [rtype|] eqn:Hr;
  [|right; split; [no_invite Hg|];
    do 2 eexists; split; [reflexivity|constructor]].
  destruct (truthy valid) eqn:Hva; simpl.
  2:{ right. split; [no_invite Hg|].
      do 2 eexists. split; [reflexivity|repeat constructor]. }
  destruct (js_eq_str rtype "client") eqn:Hc; simpl.
  - left. exists data, valid, rtype. auto 10.
  - right. split; [no_invite Hg|].
    do 2 eexists. split; [reflexivity|repeat constructor].
Qed.

(** Loading an invitation page: [loading] always ends [false]; the token
    is sent to [/share/resolve/:token] exactly when it is present and
    non-empty; the invitation is kept exactly when the server's answer is
    truthy, [valid] and of type [client]; otherwise an error is shown,
    and never both. *)
Theorem onMount_outcome get token :
  let effs := onMount get token in
  last effs = Some (VSetLoading false) /\
  ((exists url, In (VApiGet url) effs) <-> exists t, token = Some t /\ t <> "") /\
  (forall v, In (VSetInviteData v) effs <->
     exists t valid rtype,
       token = Some t /\ t <> "" /\ get ("/share/resolve/" +:+ t) = Ok v /\
       truthy v = true /\
       get_prop v "valid" = Some valid /\ truthy valid = true /\
       get_prop v "resource_type" = Some rtype /\ js_eq_str rtype "client" = true) /\
  ((exists m, In (VSetError m) effs) <-> forall v, ~ In (VSetInviteData v) effs).
Proof.
  unfold onMount.
  destruct token as [t|]; [destruct (String.eqb_spec t "") as [->|Ht]|].
  3,1: split; [reflexivity|];
    split; [split; [intros [url [H|[H|[]]]]; discriminate|
                    intros (t' & Ht' & H); try discriminate Ht';
                    injection Ht' as <-; contradiction]|];
    split; [intros v; split; [intros [H|[H|[]]]; discriminate|
              intros (t' & ? & ? & Ht' & H & _); try discriminate Ht';
              injection Ht' as <-; contradiction]|];
    split; [intros _ v [H|[H|[]]]; discriminate|intros _; eexists; left; reflexivity].
  unfold verifyToken. split; [by rewrite last_app|].
  split; [split; [intros _; by exists t|intros _; eexists; left; reflexivity]|].
  destruct (verify_body_shape get t) as [(data & valid & rtype & Hg & Htr & Hv & Hva & Hr & Hc & ->)
                                        |(Hno & m & rest & -> & Hrest)].
  - split.
    + intros v. split.
      * intros [H|[H|[H|[]]]]; try discriminate H. injection H as <-.
        exists t, valid, rtype. auto 10.
      * intros (t' & valid' & rtype' & [=<-] & _ & Hg' & _).
        rewrite Hg in Hg'. injection Hg' as <-. right. left. reflexivity.
    + split; [intros (m & [H|[H|[H|[]]]]); discriminate|].
      intros Hn. exfalso. apply (Hn data). right. left. reflexivity.
  - assert (Hnot : forall e, In e (app rest [VSetLoading false]) -> e = VSetLoading false).
    { intros e He. apply in_app_or in He as [He|[He|[]]]; [|by subst].
      rewrite Forall_forall in Hrest. apply Hrest. by apply list_elem_of_In. }
    split.
    + intros v. split.
      * intros [H|[H|H]]; try discriminate H. apply Hnot in H. discriminate.
      * intros (t' & valid & rtype & [=<-] & _ & Hg & Htr & Hv & Hva & Hr & Hc).
        exfalso. apply Hno. exists v, valid, rtype. auto 10.
    + split; [|intros _; exists m; right; left; reflexivity].
      intros _ v [H|[H|H]]; try discriminate H. apply Hnot in H. discriminate.
Qed.

Ltac find_in := simpl; solve [repeat (first [left; reflexivity | right])].

Ltac elim_in H :=
  simpl in H; repeat (destruct H as [H|H]; [try discriminate H|]);
  try discriminate H; try contradiction.

Ltac settle_hyps :=
  repeat match goal with
  | H : Ok _ = Ok _ |- _ => injection H as <-
  | H : Some _ = Some _ |- _ => injection H as <-
  | H : _ \/ _ |- _ => destruct H
  | H : ex _ |- _ => destruct H
  end; try congruence.

(** [handleAccept] for a Chartered Accountant: [accepting] is set first
    and cleared last on every path, at most one accept request is sent,
    the page moves to the client's documents exactly when the client is
    already assigned to this CA or the accept request succeeded, and an
    error is shown exactly when it does not move. *)
Theorem handleAccept_outcome get post token inviteData u :
  u_role u = Some "ca" ->
  let effs := handleAccept get post true (Some u) token inviteData in
  let docs := Navigate ("/share/documents/" +:+ resource_id inviteData) in
  head effs = Some (SetAccepting true) /\
  last effs = Some (SetAccepting false) /\
  length (List.filter is_post effs) <= 1 /\
  (In docs effs <->
     exists client a,
       get ("/clients/" +:+ resource_id inviteData) = Ok client /\
       get_prop client "assigned_ca_id" = Some a /\
       (js_eq_str a (u_id u) = true \/
        exists r, post "/clients/accept-invite" = Ok r)) /\
  ((exists m, In (SetError m) effs) <-> ~ In docs effs).
Proof.
  intros Hrole. unfold handleAccept, accept_body. cbv zeta.
  remember ("/clients/" +:+ resource_id inviteData) as cu eqn:Hcu. clear Hcu.
  remember ("/share/documents/" +:+ resource_id inviteData) as du eqn:Hdu. clear Hdu.
  unfold opt_role, role_neq_ca, accept_error. rewrite Hrole. simpl.
  destruct (get cu) as [client|det] eqn:Hg;
  [destruct (get_prop client "assigned_ca_id") as [a|] eqn:Ha;
   [destruct (js_eq_str a (u_id u)) eqn:Hid;
    [|destruct (post "/clients/accept-invite") as [r|det] eqn:Hp]|]|].
  all: split; [reflexivity|]; split; [reflexivity|]; split; [simpl; lia|].
  all: split; [split|split].
  all: try (intros H; elim_in H;
            eexists _, _; split; [reflexivity|split; [eassumption|]];
            first [left; assumption | right; eexists; reflexivity]).
  all: try solve [intros H; elim_in H].
  all: try (intros (c' & a' & Hc & Ha' & Hor); settle_hyps; find_in).
  all: try (intros (m & Hm) Hd; elim_in Hm; elim_in Hd).
  all: try (intros Hn; first [eexists; find_in | exfalso; apply Hn; find_in]).
Qed.

(** Signup form submission ([Signup.handleSubmit]): the request sent, if
    any, always goes to [/auth/signup] with the lowercased role coerced to
    "client" or "ca"; a form without a role field sends nothing; the user
    is sent to [/login] exactly when the request succeeded; and loading is
    switched off last in every case. *)
Theorem handleSubmit_outcome post name email password roleValue :
  let effs := handleSubmit post name email password roleValue in
  last effs = Some (SSetLoading false) /\
  (forall url body, In (SPost url body) effs ->
     url = "/auth/signup" /\
     exists v, roleValue = Some v /\
       body = [("name", name); ("email", email); ("password", password);
               ("role", if String.eqb (toLowerCase v) "client"
                        then "client" else "ca")]) /\
  (In (SNavigate "/login") effs <->
     exists v r, roleValue = Some v /\ post "/auth/signup" = Ok r).
Proof.
  unfold handleSubmit. cbv zeta.
  destruct roleValue as [v|]; simpl.
  - assert (Hrole : (if negb (String.eqb (toLowerCase v) "client") &&
                         negb (String.eqb (toLowerCase v) "ca")
                     then "ca" else toLowerCase v) =
                    (if String.eqb (toLowerCase v) "client"
                     then "client" else "ca")).
    { destruct (String.eqb_spec (toLowerCase v) "client") as [->|_]; [reflexivity|].
      destruct (String.eqb_spec (toLowerCase v) "ca") as [->|_]; reflexivity. }
    rewrite Hrole.
    destruct (post "/auth/signup") as [r|det] eqn:Hp; simpl.
    + split; [reflexivity|]. split.
      * intros url body H. elim_in H. injection H as <- <-.
        split; [reflexivity|]. eexists; split; reflexivity.
      * split; [intros _; eexists _, _; split; reflexivity|].
        intros _; find_in.
    + split; [reflexivity|]. split.
      * intros url body H. elim_in H. injection H as <- <-.
        split; [reflexivity|]. eexists; split; reflexivity.
      * split; [intros H; elim_in H|].
        intros (v' & r & [= <-] & Hr). congruence.
  - split; [reflexivity|]. split.
    + intros url body H. elim_in H.
    + split; [intros H; elim_in H|]. intros (v' & r & Hv & _); discriminate.
Qed.

End InvitePageProofs.

(* ================================================================== *)
(** * The page properties at sample inputs *)

Module PageWitnesses.
Import PageExamples.

Lemma toggleDocument_requests_witness :
  SheetsView.reachable SheetsView.initial /\
  SheetsView.requests
    (snd (SheetsPage.toggleDocument tx_api "doc1" bank_doc ∅ SheetsView.initial))
  = [SheetsView.extract_url "doc1"].
Proof.
  split; [constructor|].
  destruct (SheetsPageProofs.toggleDocument_requests tx_api "doc1" bank_doc ∅
              SheetsView.initial SheetsView.reach_init) as [_ H].
  destruct (H (not_elem_of_empty "doc1")) as [_ ->].
  vm_compute. reflexivity.
Defined.


Lemma processFiles_upload_status_witness :
  "Bank Statement" <> "" /\ "client-1" <> "" /\
  NoDup (map DocumentUpload.file_ref
           (app (map DocumentUpload.uf_file (DocumentUpload.files upload_start)) new_files)) /\
  DocumentUpload.files
    (DocumentUpload.processFiles (fun _ => true) "Bank Statement" "client-1"
       new_files None upload_start)
  = app (DocumentUpload.files upload_start)
        (map (fun f => UploadPage.uploaded_entry (fun _ => true) "client-1" "Bank Statement"
                         (UploadPage.processed_entry "Bank Statement" None f)) new_files).
Proof.
  assert (Hnd : NoDup (map DocumentUpload.file_ref
           (app (map DocumentUpload.uf_file (DocumentUpload.files upload_start)) new_files)))
    by (apply (bool_decide_unpack _); vm_compute; exact I).
  split; [discriminate|]. split; [discriminate|]. split; [exact Hnd|].
  apply (UploadPageProofs.processFiles_upload_status (fun _ => true) "Bank Statement"
           "client-1" new_files None upload_start); [discriminate | discriminate | exact Hnd].
Defined.

Lemma handleAccept_outcome_witness :
  AcceptInvite.u_role ca_user = Some "ca" /\
  In (AcceptInvite.Navigate "/share/documents/c1")
     (AcceptInvite.handleAccept (fun _ => other_ca_client)
        (fun _ => AcceptInvite.Ok JNull) true (Some ca_user) "tok"
        (AcceptInvite.mkInvite "c1")).
Proof.
  split; [reflexivity|].
  pose proof (InvitePageProofs.handleAccept_outcome (fun _ => other_ca_client)
                (fun _ => AcceptInvite.Ok JNull) "tok" (AcceptInvite.mkInvite "c1")
                ca_user eq_refl) as H.
  cbv zeta in H.
  apply (proj2 (proj1 (proj2 (proj2 (proj2 H))))).
  exists (JObj [("assigned_ca_id", JStr "u2")]), (JStr "u2").
  split; [reflexivity|]. split; [reflexivity|]. right. exists JNull. reflexivity.
Defined.

Lemma yearDocs_counts_witness :
  "2024" ∈ map (fun d => fst (jan_dates (SheetsPage.created_at d))) sheet_docs /\
  SheetsPage.yearDocs (SheetsPage.organized_js (SheetsPage.organize jan_dates sheet_docs))
    "2024" = 2.
Proof.
  assert (Hy : "2024" ∈ map (fun d => fst (jan_dates (SheetsPage.created_at d))) sheet_docs)
    by (apply (bool_decide_unpack _); vm_compute; exact I).
  split; [exact Hy|].
  rewrite (SheetsPageProofs.yearDocs_counts jan_dates sheet_docs "2024" Hy).
  vm_compute. reflexivity.
Defined.

End PageWitnesses.
